(** * ceph/ceph.py: clusters, role containers, connection managers, nodes
      and the Ceph object factory

    A shallow embedding of [src/ceph/ceph.py].  The module is Python 2
    code ([xrange] at line 237, [str] concatenation of channel data), so a
    [str] has no [__iter__] attribute while lists and [RolesContainer]
    instances have one.  Roles are strings; the values that reach a role
    argument are kept in a small sum type so that comparisons between a
    string and a list stay visible. *)

From Stdlib Require Import List String Ascii ZArith Lia Bool Permutation.
Import ListNotations.
Open Scope string_scope.
Open Scope Z_scope.
Open Scope list_scope.

(** ** Python values and the operators the module applies to them *)

Module Py.

Inductive value :=
| VNone
| VStr (s : string)
| VList (l : list string).

(** [hasattr(v, '__iter__')] under Python 2. *)
Definition has_iter (v : value) : bool :=
  match v with
  | VList _ => true
  | VNone | VStr _ => false
  end.

(** Truth value of [v] in an [if]. *)
Definition truthy (v : value) : bool :=
  match v with
  | VNone => false
  | VStr s => negb (s =? "")%string
  | VList l => match l with [] => false | _ :: _ => true end
  end.

Fixpoint list_eqb (l1 l2 : list string) : bool :=
  match l1, l2 with
  | [], [] => true
  | x :: r1, y :: r2 => (x =? y)%string && list_eqb r1 r2
  | _, _ => false
  end.

(** [a == b]: values of different types are never equal. *)
Definition eqb (a b : value) : bool :=
  match a, b with
  | VNone, VNone => true
  | VStr s, VStr t => (s =? t)%string
  | VList l, VList m => list_eqb l m
  | _, _ => false
  end.

(** [x in l] for a list [l] of strings. *)
Definition in_list (x : value) (l : list string) : bool :=
  existsb (fun y => eqb x (VStr y)) l.

(** [needle in hay] for two strings: substring search. *)
Fixpoint str_contains (needle hay : string) : bool :=
  String.prefix needle hay ||
  match hay with
  | EmptyString => false
  | String _ rest => str_contains needle rest
  end.

(** The elements walked by [for x in v] when [v] has [__iter__]. *)
Definition iter (v : value) : list string :=
  match v with
  | VList l => l
  | VNone | VStr _ => []
  end.

(** [len(v)]. *)
Definition len (v : value) : Z := Z.of_nat (List.length (iter v)).

(** [l.remove(x)]: drops the first element equal to [x]; [None] stands
    for the [ValueError] raised when there is none. *)
Fixpoint list_remove (x : string) (l : list string) : option (list string) :=
  match l with
  | [] => None
  | y :: rest =>
      if (y =? x)%string then Some rest
      else option_map (cons y) (list_remove x rest)
  end.

(** [str(v)]. *)
Definition str (v : value) : string :=
  match v with
  | VNone => "None"
  | VStr s => s
  | VList _ => "[...]"
  end.

End Py.

(** ** Exceptions and results *)

Inductive exn :=
| SSHException (msg : string)
| CommandFailed (msg : string)
| AttributeError (msg : string)
| ValueError (msg : string)
| OtherException (msg : string).

Inductive result (A : Type) :=
| Ok (a : A)
| Raised (e : exn).
Arguments Ok {A} a.
Arguments Raised {A} e.

(** ** Ceph (lines 12-75) *)

(** Nodes are held by reference.  [CephNode] defines no [__eq__], so
    [atomic_node in ceph_cluster] (which walks [__iter__], that is
    [node_list]) compares object identities. *)
Definition node_ref := nat.

Module Ceph.

Record t := { name : string; node_list : list node_ref }.

(** The right operand of [==]: a cluster, or any object without a
    [node_list] attribute. *)
Inductive operand :=
| Cluster (c : t)
| Foreign.

(** [atomic_node in ceph_cluster] *)
Definition contains (ceph_cluster : t) (atomic_node : node_ref) : bool :=
  existsb (Nat.eqb atomic_node) (node_list ceph_cluster).

(** [__eq__(self, ceph_cluster)] *)
Definition __eq__ (self : t) (ceph_cluster : operand) : bool :=
  match ceph_cluster with
  | Cluster other =>
      if forallb (contains other) (node_list self) then true else false
  | Foreign => false
  end.

Definition __ne__ (self : t) (ceph_cluster : operand) : bool :=
  negb (__eq__ self ceph_cluster).

Definition __len__ (self : t) : Z := Z.of_nat (List.length (node_list self)).

End Ceph.

(** ** RolesContainer (lines 82-147) *)

Module RolesContainer.

Record t := { role_list : list string }.

(** [__init__(self, role='pool')] *)
Definition __init__ (role : Py.value) : t :=
  if Py.has_iter role
  then {| role_list := if (0 <? Py.len role) then Py.iter role else ["pool"] |}
  else {| role_list := [Py.str role] |}.

(** A [RolesContainer] passed as an argument: it defines [__iter__] and
    no [__contains__], so [hasattr] succeeds and [x in other] walks its
    [role_list]; it is seen exactly as that list. *)
Definition as_value (other : t) : Py.value := Py.VList (role_list other).

(** [__eq__(self, role)] *)
Definition __eq__ (self : t) (role : Py.value) : bool :=
  if Py.has_iter role then
    if forallb (fun atomic_role => Py.in_list (Py.VStr atomic_role) (Py.iter role))
               (role_list self)
    then true else false
  else
    if Py.in_list role (role_list self) then true else false.

Definition __ne__ (self : t) (role : Py.value) : bool :=
  negb (__eq__ self role).

Definition equals (self other : t) : bool :=
  if Py.list_eqb (role_list other) (role_list self) then true else false.

Definition __len__ (self : t) : Z := Z.of_nat (List.length (role_list self)).

Definition remove (self : t) (object : string) : result t :=
  match Py.list_remove object (role_list self) with
  | Some l => Ok {| role_list := l |}
  | None => Raised (ValueError "list.remove(x): x not in list")
  end.

Definition append (self : t) (object : string) : t :=
  {| role_list := role_list self ++ [object] |}.

Definition clear (self : t) : t := {| role_list := ["pool"] |}.

Section Sets.

(** [list(set(l))].  The order in which a Python set is walked depends
    on hashes and insertion history, so the conversion is left
    abstract here; the theorems assume of it only what every Python
    set gives: no element twice, and the same members as [l]. *)
Variable list_of_set : list string -> list string.

(** [extend(self, iterable)] *)
Definition extend (self : t) (iterable : list string) : t :=
  let extended := role_list self ++ iterable in
  {| role_list := list_of_set extended |}.

(** [update_role(self, roles_list)] *)
Definition update_role (self : t) (roles_list : list string) : t :=
  let self1 :=
    if Py.in_list (Py.VStr "pool") (role_list self)
    then match Py.list_remove "pool" (role_list self) with
         | Some l => {| role_list := l |}
         | None => self
         end
    else self in
  extend self1 roles_list.

End Sets.

End RolesContainer.

(** ** SSHConnectionManager (lines 158-210) *)

Module SSHConnectionManager.

(** Times are in seconds; [outage_start_time] is the name-mangled
    [__outage_start_time], [None] when unset. *)
Record t := {
  vmname : string;
  username : string;
  password : string;
  look_for_keys : bool;
  outage_start_time : option Z;
  outage_timeout : Z
}.

(** [__init__(self, vmname, username, password, look_for_keys=False,
    outage_timeout=300)] *)
Definition __init__ (vmname username password : string)
           (look_for_keys : bool) (outage_timeout : Z) : t :=
  {| vmname := vmname; username := username; password := password;
     look_for_keys := look_for_keys;
     outage_start_time := None;
     outage_timeout := outage_timeout |}.

Definition set_outage_start_time (v : option Z) (self : t) : t :=
  {| vmname := vmname self; username := username self;
     password := password self; look_for_keys := look_for_keys self;
     outage_start_time := v;
     outage_timeout := outage_timeout self |}.

(** What one call of [self.__client.connect(...)] does: it returns or
    raises after [took] seconds. *)
Inductive attempt :=
| Connects (took : Z)
| Fails (took : Z) (e : exn).

Definition took (a : attempt) : Z :=
  match a with Connects d => d | Fails d _ => d end.

(** The clock read by [datetime.datetime.now()], the arguments given to
    [sleep] and the errors given to [logger.warn], oldest first. *)
Record world := { now : Z; slept : list Z; warned : list exn }.

Definition pass (d : Z) (w : world) : world :=
  {| now := now w + d; slept := slept w; warned := warned w |}.

Definition warn (e : exn) (w : world) : world :=
  {| now := now w; slept := slept w; warned := warned w ++ [e] |}.

Definition sleep (d : Z) (w : world) : world :=
  {| now := now w + d; slept := slept w ++ [d]; warned := warned w |}.

Inductive step :=
| Break
| Raise (e : exn)
| Again.

(** One turn of the [while True] body (lines 183-195). *)
Definition iteration (a : attempt) (self : t) (w : world) : step * t * world :=
  match a with
  | Connects d => (Break, self, pass d w)
  | Fails d e =>
      let w1 := warn e (pass d w) in
      let self1 :=
        match outage_start_time self with
        | None => set_outage_start_time (Some (now w1)) self
        | Some _ => self
        end in
      let start := match outage_start_time self1 with
                   | Some t0 => t0
                   | None => now w1
                   end in
      if outage_timeout self1 <? now w1 - start
      then (Raise e, self1, w1)
      else (Again, self1, sleep 10 w1)
  end.

Inductive connect_result :=
| Connected
| Failed (e : exn)
| Retrying.

(** [__connect(self)], run against the list of what the successive
    connection attempts do.  [Retrying] is returned when the list ends
    while the loop is still going round. *)
Fixpoint __connect (attempts : list attempt) (self : t) (w : world)
  : connect_result * t * world :=
  match attempts with
  | [] => (Retrying, self, w)
  | a :: rest =>
      match iteration a self w with
      | (Break, self1, w1) => (Connected, set_outage_start_time None self1, w1)
      | (Raise e, self1, w1) => (Failed e, self1, w1)
      | (Again, self1, w1) => __connect rest self1 w1
      end
  end.

(** An attempt that fails, after a time that is not negative. *)
Definition failing (a : attempt) : Prop :=
  match a with
  | Fails d _ => 0 <= d
  | Connects _ => False
  end.

End SSHConnectionManager.

(** ** CephObject and its subclasses (lines 465-557) *)

Inductive ceph_class :=
| CephObject
| CephDemon
| CephClient
| CephInstaller.

(** An instance: [oid] is its identity (no class defines [__eq__]),
    [node] the owning node; [containerized] is [None] after
    [CephDemon.__init__], read as false. *)
Record ceph_object := {
  oid : nat;
  class_of : ceph_class;
  role : string;
  node : node_ref;
  containerized : bool
}.

Definition new (c : ceph_class) (oid : nat) (role : string) (node : node_ref)
  : ceph_object :=
  {| oid := oid; class_of := c; role := role; node := node;
     containerized := false |}.

(** ** CephObjectFactory (lines 560-588) *)

Module CephObjectFactory.

Definition DEMON_ROLES : list string := ["mon"; "osd"; "mgr"; "rgw"; "mds"].
Definition CLIENT_ROLES : list string := ["client"].

(** [create_ceph_object(self, role)] for a role string; [oid] is the
    identity the new instance gets.  Falling off the end of the method
    returns [None]. *)
Definition create_ceph_object (node : node_ref) (oid : nat) (role : string)
  : option ceph_object :=
  if Py.eqb (Py.VStr role) (Py.VStr "installer") then
    Some (new CephInstaller oid role node)
  else if Py.eqb (Py.VStr role) (Py.VList CLIENT_ROLES) then
    Some (new CephClient oid role node)
  else if Py.in_list (Py.VStr role) DEMON_ROLES then
    Some (new CephDemon oid role node)
  else if negb (Py.eqb (Py.VStr role) (Py.VStr "pool")) then
    Some (new CephObject oid role node)
  else None.

End CephObjectFactory.

(** ** CephNode (lines 213-462) *)

Module CephNode.

(** A paramiko channel file: what [read()] gives and what
    [channel.recv_exit_status()] answers. *)
Record stream := { data : string; recv_exit_status : Z }.

(** [client.exec_command(cmd, timeout=timeout)]: the three channel files,
    or an exception. *)
Inductive submission :=
| Started (stdin stdout stderr : stream)
| SubmitRaises (e : exn).

(** What one turn of the polling loop sees on a session channel: the exit
    status is ready, or [select] returns with the channel readable
    ([rl], with the bytes [recv] then gives) and/or exceptional ([xl]). *)
Inductive tick :=
| ExitStatusReady (ec : Z)
| Selected (rl xl : option string).

(** [get_transport().open_session()] followed by
    [channel.exec_command(cmd)]. *)
Inductive session :=
| Opened (events : list tick)
| OpenRaises (e : exn).

(** The far end of one [SSHConnectionManager], as seen during a call:
    [transport] is [Some e] when obtaining the transport raises [e]. *)
Record ssh_link := {
  transport : option exn;
  submit : string -> Z -> submission;
  open_session : string -> session
}.

Record t := {
  self_ref : node_ref;
  ip_address : string;
  vmname : string;
  ceph_object_list : list (option ceph_object);
  next_oid : nat;
  root_connection : ssh_link;
  connection : ssh_link;
  run_once : bool;
  exit_status : option Z
}.

Definition set_ceph_object_list (l : list (option ceph_object)) (n : nat)
           (self : t) : t :=
  {| self_ref := self_ref self; ip_address := ip_address self;
     vmname := vmname self; ceph_object_list := l; next_oid := n;
     root_connection := root_connection self;
     connection := connection self; run_once := run_once self;
     exit_status := exit_status self |}.

Definition set_exit_status (ec : Z) (self : t) : t :=
  {| self_ref := self_ref self; ip_address := ip_address self;
     vmname := vmname self; ceph_object_list := ceph_object_list self;
     next_oid := next_oid self;
     root_connection := root_connection self;
     connection := connection self; run_once := run_once self;
     exit_status := Some ec |}.

(** The comprehension of [__init__] (lines 233-234): one object per role
    other than ['pool']. *)
Fixpoint init_objects (node : node_ref) (oid : nat) (roles : list string)
  : list (option ceph_object) :=
  match roles with
  | [] => []
  | role :: rest =>
      if negb (Py.eqb (Py.VStr role) (Py.VStr "pool"))
      then CephObjectFactory.create_ceph_object node oid role
           :: init_objects node (S oid) rest
      else init_objects node oid rest
  end.

(** [[ceph_demon.role for ceph_demon in self.ceph_object_list if
    ceph_demon]]: a [None] entry is false and skipped, an instance is
    true. *)
Fixpoint object_roles (l : list (option ceph_object)) : list string :=
  match l with
  | [] => []
  | Some ceph_demon :: rest => role ceph_demon :: object_roles rest
  | None :: rest => object_roles rest
  end.

(** The [role] property (lines 251-253): rebuilt at every read. *)
Definition role_ (self : t) : RolesContainer.t :=
  RolesContainer.__init__ (Py.VList (object_roles (ceph_object_list self))).

Definition no_attribute_role : exn :=
  AttributeError "'NoneType' object has no attribute 'role'".

(** [[ceph_demon for ceph_demon in l if cond(ceph_demon.role)]]: reading
    [.role] of a [None] entry raises. *)
Fixpoint select (cond : string -> bool) (l : list (option ceph_object))
  : result (list ceph_object) :=
  match l with
  | [] => Ok []
  | None :: _ => Raised no_attribute_role
  | Some ceph_demon :: rest =>
      match select cond rest with
      | Ok kept =>
          Ok (if cond (role ceph_demon) then ceph_demon :: kept else kept)
      | Raised e => Raised e
      end
  end.

(** [get_ceph_demon(self, role=None)] *)
Definition get_ceph_demon (self : t) (role : Py.value)
  : result (list ceph_object) :=
  if Py.truthy role
  then select (fun r => Py.eqb (Py.VStr r) role) (ceph_object_list self)
  else Ok [].

(** [get_ceph_objects(self, role=None)] *)
Definition get_ceph_objects (self : t) (role : Py.value)
  : result (list ceph_object) :=
  select (fun r => Py.eqb (Py.VStr r) role || negb (Py.truthy role))
         (ceph_object_list self).

(** [create_ceph_object(self, role)]: whatever the factory returns is
    appended, [None] included. *)
Definition create_ceph_object (self : t) (role : string) : t :=
  set_ceph_object_list
    (ceph_object_list self
     ++ [CephObjectFactory.create_ceph_object (self_ref self) (next_oid self) role])
    (S (next_oid self)) self.

(** [a == b] on list entries: identity. *)
Definition same_entry (a b : option ceph_object) : bool :=
  match a, b with
  | None, None => true
  | Some x, Some y => Nat.eqb (oid x) (oid y)
  | _, _ => false
  end.

Fixpoint list_remove (x : option ceph_object) (l : list (option ceph_object))
  : option (list (option ceph_object)) :=
  match l with
  | [] => None
  | y :: rest =>
      if same_entry y x then Some rest
      else option_map (cons y) (list_remove x rest)
  end.

(** [remove_ceph_object(self, ceph_object)] *)
Definition remove_ceph_object (self : t) (ceph_object : option ceph_object)
  : result t :=
  match list_remove ceph_object (ceph_object_list self) with
  | Some l => Ok (set_ceph_object_list l (next_oid self) self)
  | None => Raised (ValueError "list.remove(x): x not in list")
  end.

(** Calls made on a node after its construction. *)
Inductive call :=
| Create (role : string)
| Remove (ceph_object : option ceph_object).

(** A sequence of calls; it stops at the first one that raises. *)
Fixpoint run (calls : list call) (self : t) : result t :=
  match calls with
  | [] => Ok self
  | Create role :: rest => run rest (create_ceph_object self role)
  | Remove o :: rest =>
      match remove_ceph_object self o with
      | Ok self1 => run rest self1
      | Raised e => Raised e
      end
  end.

(** *** exec_command (lines 330-394) *)

Record kwargs := {
  cmd : string;
  sudo : bool;
  timeout : option Z;
  check_ec : option bool;     (* [None]: the key is absent *)
  long_running : bool
}.

Inductive record :=
| Running (cmd ip : string)
| LongRunningCommand
| Data (d : string)
| ExceptionDuringCmd (msg : string)
| ChannelResetError
| CommandCompleted
| ErrorDuringCmd (status timeout : Z).

Inductive outcome :=
| Returns (stdout stderr : stream)
| ReturnsPair (read : string) (ec : Z)
| Raises (e : exn)
| Polling.

(** The [while True] loop of the long running branch (lines 363-375),
    run against what the channel shows turn after turn; [None] when the
    list ends before the exit status is ready. *)
Fixpoint poll (events : list tick) (read : string) (log : list record)
  : option (string * Z) * list record :=
  match events with
  | [] => (None, log)
  | ExitStatusReady ec :: _ => (Some (read, ec), log)
  | Selected rl xl :: rest =>
      let '(read1, log1) :=
        match rl with
        | Some d => ((read ++ d)%string, log ++ [Data d])
        | None => (read, log)
        end in
      let '(read2, log2) :=
        match xl with
        | Some d => ((read1 ++ d)%string, log1 ++ [Data d])
        | None => (read1, log1)
        end in
      poll rest read2 log2
  end.

(** Lines 355-357: keepalive is re-armed on both transports. *)
Definition rearm (self : t) : option exn :=
  if run_once self then
    match transport (connection self) with
    | Some e => Some e
    | None => transport (root_connection self)
    end
  else None.

Definition channel_timeout_text : string := "Timeout openning channel".

(** The [try] of lines 377-383: the values of [stdout] and [stderr]
    after it ([None] when both still hold their initial [None]) and the
    lines logged, or the exception that leaves it. *)
Definition try_submit (ssh : ssh_link) (cmd : string) (timeout : Z)
  : result (option (stream * stream) * list record) :=
  match submit ssh cmd timeout with
  | Started _ stdout stderr => Ok (Some (stdout, stderr), [])
  | SubmitRaises (SSHException msg) =>
      Ok (None,
          ExceptionDuringCmd msg ::
          (if Py.str_contains channel_timeout_text msg
           then [ChannelResetError] else []))
  | SubmitRaises e => Raised e
  end.

Definition failure_message (cmd err ip : string) : string :=
  (cmd ++ " Error:  " ++ err ++ " " ++ ip)%string.

(** Lines 342-345: the connection picked by [sudo]. *)
Definition selected (self : t) (kw : kwargs) : ssh_link :=
  if sudo kw then root_connection self else connection self.

(** Lines 347-350: a missing or false [timeout] gives 120. *)
Definition effective_timeout (kw : kwargs) : Z :=
  match timeout kw with
  | Some v => if v =? 0 then 120 else v
  | None => 120
  end.

(** [kw.get('check_ec', True)] *)
Definition checks_exit_code (kw : kwargs) : bool :=
  match check_ec kw with
  | Some b => b
  | None => true
  end.

Definition exec_command (self : t) (kw : kwargs)
  : outcome * t * list record :=
  let ssh := selected self kw in
  let timeout := effective_timeout kw in
  let log0 := [Running (cmd kw) (ip_address self)] in
  match rearm self with
  | Some e => (Raises e, self, log0)
  | None =>
      if long_running kw then
        let log1 := log0 ++ [LongRunningCommand] in
        match open_session ssh (cmd kw) with
        | OpenRaises e => (Raises e, self, log1)
        | Opened events =>
            match poll events "" log1 with
            | (Some (read, ec), log2) => (ReturnsPair read ec, self, log2)
            | (None, log2) => (Polling, self, log2)
            end
        end
      else
        match try_submit ssh (cmd kw) timeout with
        | Raised e => (Raises e, self, log0)
        | Ok (streams, logged) =>
            let log1 := log0 ++ logged in
            match streams with
            | None =>
                (Raises (AttributeError
                           "'NoneType' object has no attribute 'channel'"),
                 self, log1)
            | Some (stdout, stderr) =>
                let status := recv_exit_status stdout in
                let self1 := set_exit_status status self in
                if checks_exit_code kw then
                  if status =? 0 then
                    (Returns stdout stderr, self1, log1 ++ [CommandCompleted])
                  else
                    (Raises (CommandFailed
                               (failure_message (cmd kw) (data stderr)
                                                (ip_address self))),
                     self1, log1 ++ [ErrorDuringCmd status timeout])
                else (Returns stdout stderr, self1, log1)
            end
        end
  end.

(** *** Vocabulary of the statements about [exec_command] *)

(** The call [kw] with [check_ec] given as [v]. *)
Definition with_check_ec (v : option bool) (kw : kwargs) : kwargs :=
  {| cmd := cmd kw; sudo := sudo kw; timeout := timeout kw;
     check_ec := v; long_running := long_running kw |}.

(** A turn at which the exit status is not ready yet. *)
Definition waiting (e : tick) : Prop :=
  match e with
  | Selected _ _ => True
  | ExitStatusReady _ => False
  end.

Definition bytes (o : option string) : string :=
  match o with
  | Some d => d
  | None => ""
  end.

(** Everything [recv] handed over during the turns [events], in order. *)
Fixpoint received (events : list tick) : string :=
  match events with
  | [] => ""
  | ExitStatusReady _ :: rest => received rest
  | Selected rl xl :: rest => (bytes rl ++ bytes xl ++ received rest)%string
  end.

End CephNode.

(** ** Nodes and calls used in the examples *)

Module Fixtures.
Import CephNode.

Definition quiet : stream := {| data := ""; recv_exit_status := 0 |}.

Definition stdout_of (text : string) (status : Z) : stream :=
  {| data := text; recv_exit_status := status |}.

(** A link on which every submission ends as [s] and every session runs
    as [sess]. *)
Definition link (s : submission) (sess : session) : ssh_link :=
  {| transport := None;
     submit := fun _ _ => s;
     open_session := fun _ => sess |}.

Definition node_with (l : ssh_link) (objects : list (option ceph_object)) : t :=
  {| self_ref := 7%nat; ip_address := "10.0.0.5"; vmname := "ceph-node-1";
     ceph_object_list := objects; next_oid := List.length objects;
     root_connection := l; connection := l;
     run_once := true; exit_status := None |}.

Definition call (c : string) (check : option bool) (long : bool) : kwargs :=
  {| cmd := c; sudo := false; timeout := None; check_ec := check;
     long_running := long |}.

Definition mon_object : ceph_object := new CephDemon 0%nat "mon" 7%nat.

End Fixtures.

(** ** More string methods *)

Module PyStr.

(** The characters [str.strip()] removes. *)
Definition is_space (c : ascii) : bool :=
  match nat_of_ascii c with
  | 9%nat | 10%nat | 11%nat | 12%nat | 13%nat | 32%nat => true
  | _ => false
  end.

Fixpoint lstrip (s : string) : string :=
  match s with
  | EmptyString => EmptyString
  | String c rest => if is_space c then lstrip rest else s
  end.

Fixpoint rstrip (s : string) : string :=
  match s with
  | EmptyString => EmptyString
  | String c rest =>
      match rstrip rest with
      | EmptyString => if is_space c then EmptyString else String c EmptyString
      | kept => String c kept
      end
  end.

(** [s.strip()] *)
Definition strip (s : string) : string := lstrip (rstrip s).

(** [s.split('.')[0]]: what stands before the first dot. *)
Fixpoint first_field (s : string) : string :=
  match s with
  | EmptyString => EmptyString
  | String c rest =>
      if Ascii.eqb c "."%char then EmptyString else String c (first_field rest)
  end.

End PyStr.

(** ** NodeVolume (lines 150-155) *)

Module NodeVolume.

Definition FREE : string := "free".
Definition ALLOCATED : string := "allocated".

Record t := { status : string }.

End NodeVolume.

(** ** CephNode.__init__ and the volume queries (lines 215-259) *)

Module CephNodeInit.
Import CephNode.

(** What [__init__] leaves besides the fields of [CephNode.t]. *)
Record built := {
  node_of : t;
  vmshortname : string;
  voulume_list : list NodeVolume.t
}.

(** Lines 235-237: no volume for a count of 0, else one free volume per
    index of [xrange(no_of_volumes)] (none for a negative count). *)
Definition fresh_volumes (no_of_volumes : Z) : list NodeVolume.t :=
  if no_of_volumes =? 0 then []
  else repeat {| NodeVolume.status := NodeVolume.FREE |} (Z.to_nat no_of_volumes).

(** [__init__(self, **kw)]; [first_oid] is the identity of the first
    object it creates. *)
Definition __init__ (self_ref : node_ref) (first_oid : nat)
           (ip_address hostname : string) (role : list string)
           (no_of_volumes : Z) (root_connection connection : ssh_link)
  : built :=
  let objects := init_objects self_ref first_oid role in
  let self :=
    {| self_ref := self_ref; ip_address := ip_address; vmname := hostname;
       ceph_object_list := objects;
       next_oid := (first_oid + List.length objects)%nat;
       root_connection := root_connection; connection := connection;
       run_once := false; exit_status := None |} in
  let volumes := fresh_volumes no_of_volumes in
  {| node_of := self;
     vmshortname := PyStr.first_field hostname;
     voulume_list :=
       if RolesContainer.__eq__ (role_ self) (Py.VStr "osd")
       then map (fun _ => {| NodeVolume.status := NodeVolume.ALLOCATED |}) volumes
       else volumes |}.

(** [get_free_volumes(self)] *)
Definition get_free_volumes (voulume_list : list NodeVolume.t)
  : list NodeVolume.t :=
  filter (fun volume => (NodeVolume.status volume =? NodeVolume.FREE)%string)
         voulume_list.

(** [get_allocated_volumes(self)] *)
Definition get_allocated_volumes (voulume_list : list NodeVolume.t)
  : list NodeVolume.t :=
  filter (fun volume => (NodeVolume.status volume =? NodeVolume.ALLOCATED)%string)
         voulume_list.

End CephNodeInit.

(** ** Ceph.get_nodes and Ceph.get_ceph_objects (lines 50-75) *)

Module CephCluster.

Section Heap.

(** The node a reference stands for. *)
Variable heap : node_ref -> CephNode.t.

(** [get_nodes(self, role=None)] *)
Definition get_nodes (self : Ceph.t) (role : Py.value) : list node_ref :=
  if Py.truthy role
  then filter (fun node => RolesContainer.__eq__ (CephNode.role_ (heap node)) role)
              (Ceph.node_list self)
  else Ceph.node_list self.

(** The loop of lines 73-74: the objects of one node after the other. *)
Fixpoint gather (node_list : list node_ref) (role : Py.value)
  : result (list ceph_object) :=
  match node_list with
  | [] => Ok []
  | node :: rest =>
      match CephNode.get_ceph_objects (heap node) role with
      | Raised e => Raised e
      | Ok found =>
          match gather rest role with
          | Raised e => Raised e
          | Ok more => Ok (found ++ more)
          end
      end
  end.

(** [get_ceph_objects(self, role=None)] *)
Definition get_ceph_objects (self : Ceph.t) (role : Py.value)
  : result (list ceph_object) :=
  gather (get_nodes self role) role.

End Heap.

End CephCluster.

(** ** Command routing of the Ceph objects (lines 480-535) *)

Module ObjectProxy.
Import CephNode.

(** The call [kw] with [cmd] given as [c]. *)
Definition with_cmd (c : string) (kw : kwargs) : kwargs :=
  {| cmd := c; sudo := sudo kw; timeout := timeout kw;
     check_ec := check_ec kw; long_running := long_running kw |}.

(** [self.node.hostmname]: no [CephNode] has an attribute of that name. *)
Definition hostmname : result string :=
  Raised (AttributeError "'CephNode' object has no attribute 'hostmname'").

(** [CephDemon.container_name] *)
Definition container_name (self : ceph_object) : result string :=
  if containerized self then
    match hostmname with
    | Ok host => Ok ("ceph-" ++ role self ++ "-" ++ host)%string
    | Raised e => Raised e
    end
  else Ok "".

(** [CephDemon.container_prefix] *)
Definition container_prefix (self : ceph_object) : result string :=
  if containerized self then
    match container_name self with
    | Ok name => Ok ("sudo docker " ++ name ++ " exec")%string
    | Raised e => Raised e
    end
  else Ok "".

(** [exec_command(self, cmd, **kw)] of [CephObject], inherited by
    [CephClient] and [CephInstaller], and its override in [CephDemon];
    [owner] is the node [self.node] stands for. *)
Definition exec_command (self : ceph_object) (owner : t) (c : string)
           (kw : kwargs) : outcome * t * list record :=
  match class_of self with
  | CephDemon =>
      if containerized self then
        match container_prefix self with
        | Ok prefix =>
            CephNode.exec_command owner (with_cmd (prefix ++ " " ++ c)%string kw)
        | Raised e => (Raises e, owner, [])
        end
      else CephNode.exec_command owner (with_cmd c kw)
  | _ => CephNode.exec_command owner (with_cmd c kw)
  end.

End ObjectProxy.

(** ** CephNode.connect and set_internal_ip (lines 264-310) *)

Module FirstContact.
Import CephNode.

(** The attributes [connect] gives the node; [None] while unset. *)
Record attributes := {
  hostname : option string;
  shortname : option string;
  internal_ip : option string;
  pkg_type : option string
}.

Definition unset : attributes :=
  {| hostname := None; shortname := None; internal_ip := None;
     pkg_type := None |}.

(** What [connect] logs itself, and what [exec_command] logs under it. *)
Inductive entry :=
| Connecting (host_name ip : string)
| RunningCommand (c : string)
| Lines (text : string)
| FromNode (r : record)
| NamesSet (hostname shortname : string)
| FinishedConnect.

(** How a run ends: it returns, it raises, or (only out of the long
    running branch of [exec_command], which [connect] never takes) it is
    still polling. *)
Inductive ending :=
| Fails (e : exn)
| Stuck.

(** A step of [connect]: from the node, its attributes and the log to a
    value or an ending, and their new state. *)
Definition step (A : Type) : Type :=
  t -> attributes -> list entry -> (A + ending) * (t * attributes * list entry).

Definition ret {A : Type} (a : A) : step A :=
  fun self attrs log => (inl a, (self, attrs, log)).

Definition bind {A B : Type} (m : step A) (k : A -> step B) : step B :=
  fun self attrs log =>
    match m self attrs log with
    | (inl a, (self1, attrs1, log1)) => k a self1 attrs1 log1
    | (inr e, state) => (inr e, state)
    end.

Notation "x <- m ;; k" := (bind m (fun x => k))
  (at level 61, m at next level, right associativity).

Definition info (e : entry) : step unit :=
  fun self attrs log => (inl tt, (self, attrs, log ++ [e])).

Definition get_node : step t :=
  fun self attrs log => (inl self, (self, attrs, log)).

Definition set_attributes (f : attributes -> attributes) : step unit :=
  fun self attrs log => (inl tt, (self, f attrs, log)).

Definition set_run_once (self : t) : t :=
  {| self_ref := self_ref self; ip_address := ip_address self;
     vmname := vmname self; ceph_object_list := ceph_object_list self;
     next_oid := next_oid self;
     root_connection := root_connection self;
     connection := connection self; run_once := true;
     exit_status := exit_status self |}.

Definition mark_connected : step unit :=
  fun self attrs log => (inl tt, (set_run_once self, attrs, log)).

(** [self.rssh().exec_command(c)]: the root client called directly, with
    no timeout; [raw] tells what that gives for each command. *)
Definition root_exec (raw : string -> submission) (c : string) : step stream :=
  fun self attrs log =>
    match raw c with
    | Started _ stdout _ => (inl stdout, (self, attrs, log))
    | SubmitRaises e => (inr (Fails e), (self, attrs, log))
    end.

(** [self.rssh_transport().set_keepalive(15)] and its [ssh] twin. *)
Definition set_keepalive (which : t -> ssh_link) : step unit :=
  fun self attrs log =>
    match transport (which self) with
    | Some e => (inr (Fails e), (self, attrs, log))
    | None => (inl tt, (self, attrs, log))
    end.

(** [self.exec_command] called with the keywords [kw], its result
    unpacked as [(stdout, stderr)]. *)
Definition node_exec (kw : kwargs) : step (stream * stream) :=
  fun self attrs log =>
    match exec_command self kw with
    | (Returns stdout stderr, self1, logged) =>
        (inl (stdout, stderr), (self1, attrs, log ++ map FromNode logged))
    | (Raises e, self1, logged) =>
        (inr (Fails e), (self1, attrs, log ++ map FromNode logged))
    | (_, self1, logged) =>
        (inr Stuck, (self1, attrs, log ++ map FromNode logged))
    end.

(** The call [exec_command(cmd=c)]: every other key is absent. *)
Definition plain (c : string) : kwargs :=
  {| cmd := c; sudo := false; timeout := None; check_ec := None;
     long_running := false |}.

Definition ifconfig : string :=
  "/sbin/ifconfig eth0 | grep 'inet ' | awk '{ print $2}'".

Definition release_probe : string := "[ -f /etc/redhat-release ]".

(** [set_internal_ip(self)] *)
Definition set_internal_ip : step unit :=
  out <- node_exec (plain ifconfig) ;;
  set_attributes
    (fun a => {| hostname := hostname a; shortname := shortname a;
                 internal_ip := Some (PyStr.strip (data (fst out)));
                 pkg_type := pkg_type a |}).

(** [connect(self)]; [username] and [password] are the attributes of
    those names. *)
Definition connect (username password : string) (raw : string -> submission)
  : step unit :=
  self <- get_node ;;
  _ <- info (Connecting (vmname self) (ip_address self)) ;;
  _ <- root_exec raw "dmesg" ;;
  _ <- set_keepalive root_connection ;;
  let changepwd :=
    ("echo " ++ "'" ++ username ++ ":" ++ password ++ "'" ++ "|" ++ "chpasswd")%string in
  _ <- info (RunningCommand changepwd) ;;
  stdout <- root_exec raw changepwd ;;
  _ <- info (Lines (data stdout)) ;;
  _ <- root_exec raw "echo 120 > /proc/sys/net/ipv4/tcp_keepalive_time" ;;
  _ <- root_exec raw "echo 60 > /proc/sys/net/ipv4/tcp_keepalive_intvl" ;;
  _ <- root_exec raw "echo 20 > /proc/sys/net/ipv4/tcp_keepalive_probes" ;;
  _ <- node_exec (plain "ls / ; uptime ; date") ;;
  _ <- set_keepalive connection ;;
  out <- node_exec (plain "hostname") ;;
  let name := PyStr.strip (data (fst out)) in
  _ <- set_attributes
         (fun a => {| hostname := Some name;
                      shortname := Some (PyStr.first_field name);
                      internal_ip := internal_ip a;
                      pkg_type := pkg_type a |}) ;;
  _ <- info (NamesSet name (PyStr.first_field name)) ;;
  _ <- set_internal_ip ;;
  _ <- node_exec (plain "echo 'TMOUT=600' >> ~/.bashrc") ;;
  _ <- node_exec (with_check_ec (Some false) (plain release_probe)) ;;
  probed <- get_node ;;
  _ <- set_attributes
         (fun a => {| hostname := hostname a; shortname := shortname a;
                      internal_ip := internal_ip a;
                      pkg_type :=
                        Some (match exit_status probed with
                              | Some 0 => "rpm"
                              | _ => "deb"
                              end) |}) ;;
  _ <- info FinishedConnect ;;
  mark_connected.

(** *** Vocabulary of the statements about [connect] *)

(** The state a step ends in. *)
Definition node_after {A : Type} (r : (A + ending) * (t * attributes * list entry))
  : t := fst (fst (snd r)).

Definition attributes_after {A : Type}
           (r : (A + ending) * (t * attributes * list entry)) : attributes :=
  snd (fst (snd r)).

(** The step leaves the connected flag and the package family as they
    are, however it ends. *)
Definition discreet {A : Type} (m : step A) : Prop :=
  forall self attrs log,
    run_once (node_after (m self attrs log)) = run_once self
    /\ pkg_type (attributes_after (m self attrs log)) = pkg_type attrs.

(** When the step does not return, it has raised, and it has left the
    connected flag and the package family as they were. *)
Definition discreet_failure {A : Type} (m : step A) : Prop :=
  forall self attrs log ending,
    fst (m self attrs log) = inr ending ->
    (exists e, ending = Fails e)
    /\ run_once (node_after (m self attrs log)) = run_once self
    /\ pkg_type (attributes_after (m self attrs log)) = pkg_type attrs.

End FirstContact.

(** ** ocs_ci/ocs/resources/mcg_lifecycle_policies.py *)

Module Lifecycle.

(** The dictionaries the module builds: strings, integers and booleans,
    dictionaries in insertion order and lists. *)
#[warnings="-register-all"]
Inductive json :=
| JStr (s : string)
| JInt (z : Z)
| JBool (b : bool)
| JDict (items : list (string * json))
| JList (elements : list json).

(** [LifecycleFilter]: each criterion is [None] or a value; [tags] is a
    dictionary from keys to values. *)
Record LifecycleFilter := {
  prefix : option string;
  tags : option (list (string * string));
  minBytes : option Z;
  maxBytes : option Z
}.

(** [if self.prefix], [if self.minBytes], [if self.tags]: [None], the
    empty string, 0 and the empty dictionary are false. *)
Definition given_str (o : option string) : bool :=
  match o with
  | Some s => negb (s =? "")%string
  | None => false
  end.

Definition given_int (o : option Z) : bool :=
  match o with
  | Some z => negb (z =? 0)
  | None => false
  end.

Definition given_tags (o : option (list (string * string))) : bool :=
  match o with
  | Some (_ :: _) => true
  | _ => false
  end.

Definition str_of (o : option string) : string :=
  match o with Some s => s | None => "" end.

Definition int_of (o : option Z) : Z :=
  match o with Some z => z | None => 0 end.

Definition tags_of (o : option (list (string * string))) : list (string * string) :=
  match o with Some l => l | None => [] end.

(** Lines 129-130: one dictionary per tag. *)
Definition tag_dicts (l : list (string * string)) : list json :=
  map (fun kv => JDict [("Key", JStr (fst kv)); ("Value", JStr (snd kv))]) l.

(** Lines 120-131: the criteria gathered under ["And"], and the tags. *)
Definition criteria (self : LifecycleFilter) : list (string * json) :=
  (if given_str (prefix self)
   then [("Prefix", JStr (str_of (prefix self)))] else [])
  ++ (if given_int (minBytes self)
      then [("ObjectSizeGreaterThan", JInt (int_of (minBytes self)))] else [])
  ++ (if given_int (maxBytes self)
      then [("ObjectSizeLessThan", JInt (int_of (maxBytes self)))] else [])
  ++ (if given_tags (tags self)
      then [("Tags", JList (tag_dicts (tags_of (tags self))))] else []).

Definition list_of_tag_dicts (self : LifecycleFilter) : list json :=
  if given_tags (tags self) then tag_dicts (tags_of (tags self)) else [].

(** [LifecycleFilter.as_dict(self)] *)
Definition filter_as_dict (self : LifecycleFilter) : json :=
  let under_and := criteria self in
  let tag_list := list_of_tag_dicts self in
  match under_and with
  | [] => JDict []
  | [item] =>
      match tag_list with
      | [] => JDict [item]
      | [tag] => JDict [("Tag", tag)]
      | _ :: _ :: _ => JDict [("And", JDict under_and)]
      end
  | _ :: _ :: _ => JDict [("And", JDict under_and)]
  end.

(** The rule classes; [_id] is the random identifier drawn by
    [LifecycleRule.__init__]. *)
Inductive action :=
| ExpirationRule (days : option Z) (use_date : bool)
| ExpiredObjectDeleteMarkerRule (expire_object_delete_marker : bool)
| AbortIncompleteMultipartUploadRule (days_after_initiation : Z)
| NoncurrentVersionExpirationRule
    (non_current_days newer_non_current_versions : option Z).

Record LifecycleRule := {
  filter_of : LifecycleFilter;
  is_enabled : bool;
  _id : string;
  action_of : action
}.

(** The constructors: only [NoncurrentVersionExpirationRule.__init__]
    can raise (lines 344-347). *)
Definition new_rule (filter : LifecycleFilter) (is_enabled : bool)
           (id : string) (a : action) : result LifecycleRule :=
  match a with
  | NoncurrentVersionExpirationRule days versions =>
      if negb (given_int days) && negb (given_int versions)
      then Raised (ValueError
                     "Either non_current_days or newer_non_current_versions must be set")
      else Ok {| filter_of := filter; is_enabled := is_enabled; _id := id;
                 action_of := a |}
  | _ => Ok {| filter_of := filter; is_enabled := is_enabled; _id := id;
               action_of := a |}
  end.

Section Clock.

(** [(datetime.datetime.now() + datetime.timedelta(days=d))
    .strftime("%Y-%m-%d")] *)
Variable date_after : Z -> string.

(** The dictionary each subclass stores under its own key. *)
Definition action_entry (a : action) : string * json :=
  match a with
  | ExpirationRule days use_date =>
      ("Expiration",
       JDict (if given_int days
              then [(if use_date then "Date" else "Days",
                     if use_date then JStr (date_after (int_of days))
                     else JInt (int_of days))]
              else []))
  | ExpiredObjectDeleteMarkerRule b =>
      ("Expiration", JDict [("ExpiredObjectDeleteMarker", JBool b)])
  | AbortIncompleteMultipartUploadRule d =>
      ("AbortIncompleteMultipartUpload", JDict [("DaysAfterInitiation", JInt d)])
  | NoncurrentVersionExpirationRule days versions =>
      ("NoncurrentVersionExpiration",
       JDict ((match days with
               | Some d => [("NoncurrentDays", JInt d)]
               | None => []
               end)
              ++ (match versions with
                  | Some v => [("NewerNoncurrentVersions", JInt v)]
                  | None => []
                  end)))
  end.

(** [as_dict(self)] of the rule classes: the dictionary of
    [LifecycleRule.as_dict] with the key of the subclass added last. *)
Definition rule_as_dict (self : LifecycleRule) : json :=
  JDict [("Filter", filter_as_dict (filter_of self));
         ("ID", JStr (_id self));
         ("Status", JStr (if is_enabled self then "Enabled" else "Disabled"));
         action_entry (action_of self)].

(** [LifecyclePolicy.as_dict(self)] *)
Definition policy_as_dict (rules : list LifecycleRule) : json :=
  JDict [("Rules", JList (map rule_as_dict rules))].

End Clock.


End Lifecycle.

(** ** CephNode.generate_id_rsa (lines 318-328) *)

Module KeyPair.
Import CephNode FirstContact.

Definition remove_old : string :=
  "test -f ~/.ssh/id_rsa.pub && rm -f ~/.ssh/id*".

Definition keygen : string :=
  "ssh-keygen -b 2048 -f ~/.ssh/id_rsa -t rsa -q -N ''".

Definition show_key : string := "cat ~/.ssh/id_rsa.pub".

(** [generate_id_rsa(self)]; the value is what [self.id_rsa_pub] is set
    to. *)
Definition generate_id_rsa : step string :=
  _ <- node_exec (with_check_ec (Some false) (plain remove_old)) ;;
  _ <- node_exec (plain keygen) ;;
  out1 <- node_exec (plain show_key) ;;
  ret (data (fst out1)).

End KeyPair.

(** ** Identities of the objects of a node *)

Module Identity.

(** Every object of the node was created before the next one will be:
    a new object is none of those in the list. *)
Definition fresh (self : CephNode.t) : Prop :=
  forall o, In (Some o) (CephNode.ceph_object_list self) ->
            (oid o < CephNode.next_oid self)%nat.

End Identity.

(** ** A small cluster used in the examples *)

Module ClusterFixtures.

Definition idle : CephNode.ssh_link :=
  Fixtures.link (CephNode.SubmitRaises (OtherException "")) (CephNode.Opened []).

Definition objects (n : node_ref) : list ceph_object :=
  match n with
  | 1%nat => [new CephDemon 0%nat "mon" 1%nat]
  | 2%nat => [new CephDemon 0%nat "osd" 2%nat; new CephDemon 1%nat "mon" 2%nat]
  | _ => []
  end.

Definition heap (n : node_ref) : CephNode.t :=
  Fixtures.node_with idle (map Some (objects n)).

Definition cluster : Ceph.t :=
  {| Ceph.name := "ceph"; Ceph.node_list := [1%nat; 2%nat; 3%nat] |}.

End ClusterFixtures.

(** ** A host used in the examples of [connect] *)

Module HostFixtures.
Import CephNode.

Definition line (text : string) : string :=
  (text ++ String "010"%char EmptyString)%string.

Definition answers (c : string) : stream :=
  if (c =? "hostname")%string
  then Fixtures.stdout_of (line " node1.example.com") 0
  else if (c =? FirstContact.ifconfig)%string
       then Fixtures.stdout_of (line "10.0.0.9") 0
       else if (c =? FirstContact.release_probe)%string
            then Fixtures.stdout_of "NAME=Fedora" 1
            else Fixtures.quiet.

Definition host_link : ssh_link :=
  {| transport := None;
     submit := fun c _ => Started Fixtures.quiet (answers c) Fixtures.quiet;
     open_session := fun _ => Opened [] |}.

Definition host : t := Fixtures.node_with host_link [].

Definition root_answers (c : string) : submission :=
  Started Fixtures.quiet Fixtures.quiet Fixtures.quiet.

Definition root_down (c : string) : submission :=
  SubmitRaises (OtherException "connection refused").

End HostFixtures.

(** * Properties *)

(** ** Membership and substring search *)

Lemma in_list_str (x : string) (l : list string) :
  Py.in_list (Py.VStr x) l = true <-> In x l.
Proof.
  unfold Py.in_list. rewrite existsb_exists. split.
  - intros [y [Hy He]]. simpl in He. apply String.eqb_eq in He. now subst.
  - intros H. exists x. split; [assumption | simpl; apply String.eqb_refl].
Qed.

Lemma in_list_none (l : list string) : Py.in_list Py.VNone l = false.
Proof. induction l as [| y l IH]; simpl; auto. Qed.

Lemma all_in_list (l m : list string) :
  forallb (fun a => Py.in_list (Py.VStr a) m) l = true <->
  (forall x, In x l -> In x m).
Proof.
  rewrite forallb_forall. split; intros H x Hx.
  - apply in_list_str. now apply H.
  - apply in_list_str. now apply H.
Qed.

Lemma prefix_app (s t : string) : String.prefix s (s ++ t)%string = true.
Proof.
  induction s as [| c s IH]; simpl.
  - now destruct t.
  - destruct (Ascii.ascii_dec c c) as [_ | Hne]; [exact IH | now elim Hne].
Qed.

Lemma str_contains_prefix (needle hay : string) :
  String.prefix needle hay = true -> Py.str_contains needle hay = true.
Proof.
  intros H. destruct hay; cbn [Py.str_contains]; rewrite H; reflexivity.
Qed.

Lemma str_contains_app (needle before after : string) :
  Py.str_contains needle (before ++ needle ++ after)%string = true.
Proof.
  induction before as [| c before IH]; simpl.
  - apply str_contains_prefix, prefix_app.
  - rewrite IH. apply orb_true_r.
Qed.

(** ** RolesContainer *)

Lemma init_nonempty_list (R : list string) :
  R <> [] -> RolesContainer.role_list (RolesContainer.__init__ (Py.VList R)) = R.
Proof.
  intros HR. destruct R as [| r R]; [now elim HR |].
  unfold RolesContainer.__init__, Py.len. simpl Py.has_iter. cbv iota.
  simpl Py.iter. replace (0 <? Z.of_nat (List.length (r :: R))) with true;
    [reflexivity |].
  symmetry. apply Z.ltb_lt. simpl List.length. lia.
Qed.

Lemma init_empty_list :
  RolesContainer.role_list (RolesContainer.__init__ (Py.VList [])) = ["pool"].
Proof. reflexivity. Qed.

(** C1, as the specification words it, fails: a container built from
    [["mon"]] compared with the empty collection answers false although
    every element of the empty collection appears in [["mon"]]. *)
Lemma RolesContainer_eq_empty_argument_counterexample :
  RolesContainer.__eq__ (RolesContainer.__init__ (Py.VList ["mon"])) (Py.VList [])
  = false
  /\ (forall x : string, In x [] -> In x ["mon"]).
Proof. split; [reflexivity | intros x []]. Qed.

(** C1 (amended): for a container built from a non-empty role collection
    [R], [RolesContainer(R) == C] is true iff every element of [R] appears
    in the collection [C] (so it is false when [C] is empty), and
    [RolesContainer(R) == r] for a single role string [r] is true iff [r]
    is an element of [R]. *)
Theorem RolesContainer_eq_membership (R C : list string) (r : string) :
  R <> [] ->
  (RolesContainer.__eq__ (RolesContainer.__init__ (Py.VList R)) (Py.VList C) = true
   <-> (forall x, In x R -> In x C))
  /\ (C = [] ->
      RolesContainer.__eq__ (RolesContainer.__init__ (Py.VList R)) (Py.VList C)
      = false)
  /\ (RolesContainer.__eq__ (RolesContainer.__init__ (Py.VList R)) (Py.VStr r) = true
      <-> In r R).
Proof.
  intros HR. unfold RolesContainer.__eq__. rewrite (init_nonempty_list R HR).
  simpl Py.has_iter. cbv iota. simpl Py.iter.
  split; [| split].
  - rewrite <- all_in_list.
    destruct (forallb _ R); split; congruence.
  - intros ->. destruct R as [| x R]; [now elim HR | reflexivity].
  - rewrite <- in_list_str.
    destruct (Py.in_list (Py.VStr r) R); split; congruence.
Qed.

Lemma RolesContainer_eq_membership_witness :
  (RolesContainer.__eq__ (RolesContainer.__init__ (Py.VList ["mon"; "osd"]))
                         (Py.VList ["osd"; "mgr"; "mon"]) = true
   <-> (forall x, In x ["mon"; "osd"] -> In x ["osd"; "mgr"; "mon"]))
  /\ (["osd"; "mgr"; "mon"] = [] ->
      RolesContainer.__eq__ (RolesContainer.__init__ (Py.VList ["mon"; "osd"]))
                            (Py.VList ["osd"; "mgr"; "mon"]) = false)
  /\ (RolesContainer.__eq__ (RolesContainer.__init__ (Py.VList ["mon"; "osd"]))
                            (Py.VStr "osd") = true
      <-> In "osd" ["mon"; "osd"]).
Proof.
  apply (RolesContainer_eq_membership ["mon"; "osd"] ["osd"; "mgr"; "mon"] "osd").
  discriminate.
Defined.

(** A [RolesContainer] argument is seen through its [role_list]. *)
Lemma RolesContainer_eq_container (self other : RolesContainer.t) :
  RolesContainer.__eq__ self (RolesContainer.as_value other) = true
  <-> (forall x, In x (RolesContainer.role_list self) ->
                 In x (RolesContainer.role_list other)).
Proof.
  unfold RolesContainer.__eq__, RolesContainer.as_value. simpl.
  rewrite <- all_in_list. destruct (forallb _ _); split; congruence.
Qed.

Section Extend.

Variable list_of_set : list string -> list string.
Hypothesis list_of_set_NoDup : forall l, NoDup (list_of_set l).
Hypothesis list_of_set_In : forall l x, In x (list_of_set l) <-> In x l.

Lemma extend_In (self : RolesContainer.t) (L : list string) (x : string) :
  In x (RolesContainer.role_list (RolesContainer.extend list_of_set self L))
  <-> In x (RolesContainer.role_list self) \/ In x L.
Proof.
  unfold RolesContainer.extend. simpl.
  rewrite list_of_set_In. apply in_app_iff.
Qed.

(** C9: [extend] leaves no role twice, holds exactly the old roles and the
    new ones, and extending a second time with the same list leaves the
    same roles (the same list up to order, which a Python set does not
    fix). *)
Theorem RolesContainer_extend_idempotent
        (self : RolesContainer.t) (L : list string) :
  let once := RolesContainer.extend list_of_set self L in
  let twice := RolesContainer.extend list_of_set once L in
  NoDup (RolesContainer.role_list once)
  /\ (forall x, In x (RolesContainer.role_list once)
                <-> In x (RolesContainer.role_list self) \/ In x L)
  /\ (forall x, In x (RolesContainer.role_list twice)
                <-> In x (RolesContainer.role_list once))
  /\ Permutation (RolesContainer.role_list twice) (RolesContainer.role_list once).
Proof.
  intros once twice.
  assert (Hsame : forall x, In x (RolesContainer.role_list twice)
                            <-> In x (RolesContainer.role_list once)).
  { intros x. unfold twice. rewrite extend_In. split.
    - intros [H | H]; [exact H |]. unfold once. apply extend_In. now right.
    - intros H. now left. }
  split; [apply list_of_set_NoDup |].
  split; [intros x; apply extend_In |].
  split; [exact Hsame |].
  apply NoDup_Permutation; [apply list_of_set_NoDup | apply list_of_set_NoDup | exact Hsame].
Qed.

End Extend.

Lemma RolesContainer_extend_idempotent_witness :
  let self := {| RolesContainer.role_list := ["mon"; "osd"] |} in
  let L := ["osd"; "mgr"; "mgr"] in
  let once := RolesContainer.extend (nodup string_dec) self L in
  let twice := RolesContainer.extend (nodup string_dec) once L in
  NoDup (RolesContainer.role_list once)
  /\ (forall x, In x (RolesContainer.role_list once)
                <-> In x (RolesContainer.role_list self) \/ In x L)
  /\ (forall x, In x (RolesContainer.role_list twice)
                <-> In x (RolesContainer.role_list once))
  /\ Permutation (RolesContainer.role_list twice) (RolesContainer.role_list once).
Proof.
  apply (RolesContainer_extend_idempotent (nodup string_dec)).
  - intros l. apply NoDup_nodup.
  - intros l x. apply nodup_In.
Defined.

Example extend_twice_example :
  RolesContainer.role_list
    (RolesContainer.extend (nodup string_dec)
       (RolesContainer.extend (nodup string_dec)
          {| RolesContainer.role_list := ["mon"; "osd"] |} ["osd"; "mgr"; "mgr"])
       ["osd"; "mgr"; "mgr"])
  = ["mon"; "osd"; "mgr"].
Proof. reflexivity. Qed.

(** ** Ceph *)

Lemma contains_In (c : Ceph.t) (a : node_ref) :
  Ceph.contains c a = true <-> In a (Ceph.node_list c).
Proof.
  unfold Ceph.contains. rewrite existsb_exists. split.
  - intros [y [Hy He]]. apply Nat.eqb_eq in He. now subst.
  - intros H. exists a. split; [assumption | apply Nat.eqb_refl].
Qed.

Lemma Ceph_eq_subset (A B : Ceph.t) :
  Ceph.__eq__ A (Ceph.Cluster B) = true
  <-> (forall n, In n (Ceph.node_list A) -> In n (Ceph.node_list B)).
Proof.
  unfold Ceph.__eq__.
  assert (H : forallb (Ceph.contains B) (Ceph.node_list A) = true
              <-> (forall n, In n (Ceph.node_list A) -> In n (Ceph.node_list B))).
  { rewrite forallb_forall. split; intros H n Hn; apply contains_In; auto. }
  rewrite <- H. destruct (forallb _ _); split; congruence.
Qed.

Lemma Ceph_eq_foreign (A : Ceph.t) : Ceph.__eq__ A Ceph.Foreign = false.
Proof. reflexivity. Qed.

(** C4: [A == B] is true iff every node of [A] is present in [B]; when
    the nodes of [A] are a strict subset of those of [B], [A == B] is true
    and [B == A] is false; so equality is not symmetric. *)
Theorem Ceph_eq_asymmetric_containment :
  (forall A B : Ceph.t,
      Ceph.__eq__ A (Ceph.Cluster B) = true
      <-> (forall n, In n (Ceph.node_list A) -> In n (Ceph.node_list B)))
  /\ (forall A B : Ceph.t,
         (forall n, In n (Ceph.node_list A) -> In n (Ceph.node_list B)) ->
         (exists n, In n (Ceph.node_list B) /\ ~ In n (Ceph.node_list A)) ->
         Ceph.__eq__ A (Ceph.Cluster B) = true
         /\ Ceph.__eq__ B (Ceph.Cluster A) = false)
  /\ (exists A B : Ceph.t,
         Ceph.__eq__ A (Ceph.Cluster B) <> Ceph.__eq__ B (Ceph.Cluster A)).
Proof.
  split; [exact Ceph_eq_subset |]. split.
  - intros A B Hsub [n [HnB HnA]]. split.
    + now apply Ceph_eq_subset.
    + destruct (Ceph.__eq__ B (Ceph.Cluster A)) eqn:E; [| reflexivity].
      exfalso. apply HnA. now apply (proj1 (Ceph_eq_subset B A) E).
  - exists {| Ceph.name := "a"; Ceph.node_list := [1%nat] |},
           {| Ceph.name := "b"; Ceph.node_list := [1%nat; 2%nat] |}.
    discriminate.
Qed.

Lemma Ceph_eq_asymmetric_containment_witness :
  Ceph.__eq__ {| Ceph.name := "a"; Ceph.node_list := [1%nat; 3%nat] |}
              (Ceph.Cluster {| Ceph.name := "b";
                               Ceph.node_list := [3%nat; 2%nat; 1%nat] |}) = true
  /\ Ceph.__eq__ {| Ceph.name := "b"; Ceph.node_list := [3%nat; 2%nat; 1%nat] |}
                 (Ceph.Cluster {| Ceph.name := "a";
                                  Ceph.node_list := [1%nat; 3%nat] |}) = false.
Proof.
  apply (proj1 (proj2 Ceph_eq_asymmetric_containment)).
  - simpl. intros n [H | [H | []]]; subst; auto.
  - exists 2%nat. split; [simpl; auto |].
    simpl. intros [H | [H | []]]; discriminate.
Defined.

(** ** CephObjectFactory *)

Lemma str_eqb_spec (s t : string) :
  Py.eqb (Py.VStr s) (Py.VStr t) = (s =? t)%string.
Proof. reflexivity. Qed.

Lemma str_never_equals_list (s : string) (l : list string) :
  Py.eqb (Py.VStr s) (Py.VList l) = false.
Proof. reflexivity. Qed.

(** What the factory does on role strings: the comparison of [role] with
    the list [CLIENT_ROLES] never succeeds, so no [CephClient] is built. *)
Lemma create_ceph_object_cases (node : node_ref) (oid : nat) (role : string) :
  CephObjectFactory.create_ceph_object node oid role =
    if (role =? "installer")%string then Some (new CephInstaller oid role node)
    else if Py.in_list (Py.VStr role) CephObjectFactory.DEMON_ROLES
         then Some (new CephDemon oid role node)
    else if (role =? "pool")%string then None
    else Some (new CephObject oid role node).
Proof.
  unfold CephObjectFactory.create_ceph_object.
  rewrite str_never_equals_list, !str_eqb_spec.
  destruct (role =? "installer")%string; [reflexivity |].
  destruct (Py.in_list _ _); [reflexivity |].
  now destruct (role =? "pool")%string.
Qed.

Lemma create_ceph_object_never_client (node : node_ref) (oid : nat) (role : string) :
  forall o, CephObjectFactory.create_ceph_object node oid role = Some o ->
            class_of o <> CephClient.
Proof.
  intros o. rewrite create_ceph_object_cases.
  destruct (role =? "installer")%string; [intros [= <-]; discriminate |].
  destruct (Py.in_list _ _); [intros [= <-]; discriminate |].
  destruct (role =? "pool")%string; [discriminate | intros [= <-]; discriminate].
Qed.

(** C2, on the code: the role ["client"] does not give a [CephClient] but
    falls through to the generic [CephObject]; the other roles are mapped
    as stated (installer, the five demon roles, no object for ["pool"], a
    generic object for an unknown role). *)
Theorem create_ceph_object_client_is_generic :
  CephObjectFactory.create_ceph_object 0%nat 0%nat "client"
  = Some (new CephObject 0%nat "client" 0%nat)
  /\ CephObjectFactory.create_ceph_object 0%nat 0%nat "installer"
     = Some (new CephInstaller 0%nat "installer" 0%nat)
  /\ map (fun r => option_map class_of
                     (CephObjectFactory.create_ceph_object 0%nat 0%nat r))
         ["mon"; "osd"; "mgr"; "rgw"; "mds"]
     = [Some CephDemon; Some CephDemon; Some CephDemon; Some CephDemon;
        Some CephDemon]
  /\ CephObjectFactory.create_ceph_object 0%nat 0%nat "pool" = None
  /\ CephObjectFactory.create_ceph_object 0%nat 0%nat "custom"
     = Some (new CephObject 0%nat "custom" 0%nat).
Proof. repeat split. Qed.

(** ** SSHConnectionManager *)

Module ConnectFacts.
Import SSHConnectionManager.

Lemma set_same (self : t) (t0 : Z) :
  outage_start_time self = Some t0 ->
  set_outage_start_time (Some t0) self = self.
Proof. destruct self; simpl; intros ->; reflexivity. Qed.

(** A failed attempt: the time of the first failure is recorded if none
    is, then the loop raises or sleeps 10 and goes round again. *)
Lemma iteration_fails (d : Z) (e : exn) (self : t) (w : world) :
  let t0 := match outage_start_time self with
            | Some t => t
            | None => now w + d
            end in
  iteration (Fails d e) self w =
    if outage_timeout self <? now w + d - t0
    then (Raise e, set_outage_start_time (Some t0) self, warn e (pass d w))
    else (Again, set_outage_start_time (Some t0) self,
          sleep 10 (warn e (pass d w))).
Proof.
  unfold iteration. destruct (outage_start_time self) as [t |] eqn:E; simpl.
  - rewrite E, (set_same self t E). reflexivity.
  - reflexivity.
Qed.

Lemma connect_connected_clears (attempts : list attempt) :
  forall (self self' : t) (w w' : world),
    __connect attempts self w = (Connected, self', w') ->
    outage_start_time self' = None.
Proof.
  induction attempts as [| a rest IH]; intros self self' w w'; simpl.
  - discriminate.
  - destruct a as [d | d e].
    + simpl. intros [= <- _]. reflexivity.
    + rewrite iteration_fails.
      destruct (outage_timeout self <? _); [discriminate | apply IH].
Qed.

Lemma connect_failed_late (attempts : list attempt) :
  forall (self self' : t) (w w' : world) (e : exn),
    __connect attempts self w = (Failed e, self', w') ->
    exists t0 earlier,
      outage_start_time self' = Some t0
      /\ outage_timeout self < now w' - t0
      /\ warned w' = earlier ++ [e]
      /\ (forall t, outage_start_time self = Some t -> t0 = t).
Proof.
  induction attempts as [| a rest IH]; intros self self' w w' e; simpl.
  - discriminate.
  - destruct a as [d | d e0].
    + simpl. discriminate.
    + rewrite iteration_fails.
      destruct (outage_timeout self <? _) eqn:E.
      * intros [= <- <- <-]. apply Z.ltb_lt in E.
        eexists. exists (warned w). simpl.
        repeat split; [exact E |].
        intros t Ht. rewrite Ht. reflexivity.
      * intros H. apply IH in H. destruct H as [t0 [earlier [H1 [H2 [H3 H4]]]]].
        exists t0, earlier. simpl in H2. repeat split; try assumption.
        intros t Ht. rewrite Ht in H4. now apply H4.
Qed.

Lemma connect_sleeps_ten (attempts : list attempt) :
  forall (self : t) (w : world),
    exists k, slept (snd (__connect attempts self w)) = slept w ++ repeat 10 k.
Proof.
  induction attempts as [| a rest IH]; intros self w; simpl.
  - exists 0%nat. simpl. now rewrite app_nil_r.
  - destruct a as [d | d e].
    + exists 0%nat. simpl. now rewrite app_nil_r.
    + rewrite iteration_fails.
      destruct (outage_timeout self <? _).
      * exists 0%nat. simpl. now rewrite app_nil_r.
      * destruct (IH (set_outage_start_time
                        (Some match outage_start_time self with
                              | Some t => t
                              | None => now w + d
                              end) self)
                     (sleep 10 (warn e (pass d w)))) as [k Hk].
        exists (S k). rewrite Hk. simpl. now rewrite <- app_assoc.
Qed.

Lemma connect_outage_running (attempts : list attempt) :
  forall (self : t) (w : world) (t0 : Z),
    attempts <> [] ->
    Forall failing attempts ->
    outage_start_time self = Some t0 ->
    outage_timeout self < now w - t0 + 10 * (Z.of_nat (List.length attempts) - 1) ->
    exists e self' w', __connect attempts self w = (Failed e, self', w').
Proof.
  induction attempts as [| a rest IH]; intros self w t0 Hne Hall Hstart Hlong.
  - now elim Hne.
  - inversion Hall as [| a' rest' Ha Hrest]; subst.
    destruct a as [d | d e]; [now elim Ha |]. simpl in Ha.
    cbn [__connect]. rewrite iteration_fails, Hstart.
    destruct (outage_timeout self <? now w + d - t0) eqn:E.
    + eauto.
    + apply Z.ltb_ge in E. rewrite (set_same self t0 Hstart).
      apply (IH self (sleep 10 (warn e (pass d w))) t0).
      * intros ->. change (Z.of_nat (List.length [Fails d e])) with 1 in Hlong. lia.
      * assumption.
      * assumption.
      * rewrite length_cons in Hlong. cbn [sleep warn pass now]. lia.
Qed.

Lemma connect_outage_raises (attempts : list attempt) (self : t) (w : world) :
  Forall failing attempts ->
  outage_start_time self = None ->
  0 <= outage_timeout self < 10 * (Z.of_nat (List.length attempts) - 1) ->
  exists e self' w', __connect attempts self w = (Failed e, self', w').
Proof.
  intros Hall Hstart [Hpos Hlong].
  destruct attempts as [| a rest]; [simpl in Hlong; lia |].
  inversion Hall as [| a' rest' Ha Hrest]; subst.
  destruct a as [d | d e]; [now elim Ha |].
  cbn [__connect]. rewrite iteration_fails, Hstart.
  replace (now w + d - (now w + d)) with 0 by lia.
  destruct (outage_timeout self <? 0) eqn:E; [apply Z.ltb_lt in E; lia |].
  rewrite length_cons in Hlong.
  apply (connect_outage_running rest _ _ (now w + d)).
  - intros ->. simpl in Hlong. lia.
  - assumption.
  - reflexivity.
  - cbn [sleep warn pass now outage_timeout set_outage_start_time]. lia.
Qed.

Lemma connect_recovers_running (pre : list attempt) :
  forall (self : t) (w : world) (t0 d : Z) (rest : list attempt),
    Forall failing pre ->
    outage_start_time self = Some t0 ->
    now w - t0 + fold_right Z.add 0 (map took pre)
      + 10 * Z.of_nat (List.length pre) <= outage_timeout self ->
    exists w', __connect (pre ++ Connects d :: rest) self w
               = (Connected, set_outage_start_time None self, w').
Proof.
  induction pre as [| a pre IH]; intros self w t0 d rest Hall Hstart Hshort.
  - simpl. eauto.
  - inversion Hall as [| a' pre' Ha Hpre]; subst.
    destruct a as [d0 | d0 e]; [now elim Ha |]. simpl in Ha.
    cbn [app __connect]. rewrite iteration_fails, Hstart.
    cbn [map took fold_right] in Hshort. rewrite length_cons in Hshort.
    assert (Hsum : 0 <= fold_right Z.add 0 (map took pre)).
    { clear - Hpre. induction Hpre as [| b l Hb Hl IHl]; simpl; [lia |].
      destruct b; simpl in *; [now elim Hb | lia]. }
    destruct (outage_timeout self <? now w + d0 - t0) eqn:E;
      [apply Z.ltb_lt in E; lia |].
    rewrite (set_same self t0 Hstart).
    apply (IH self _ t0); [assumption | assumption |].
    cbn [sleep warn pass now]. lia.
Qed.

Lemma connect_recovers (pre : list attempt) (self : t) (w : world) (d : Z)
      (rest : list attempt) :
  Forall failing pre ->
  outage_start_time self = None ->
  fold_right Z.add 0 (map took pre) + 10 * Z.of_nat (List.length pre)
    <= outage_timeout self ->
  exists self' w', __connect (pre ++ Connects d :: rest) self w
                   = (Connected, self', w')
                   /\ outage_start_time self' = None.
Proof.
  intros Hall Hstart Hshort.
  destruct pre as [| a pre].
  - simpl. eauto.
  - inversion Hall as [| a' pre' Ha Hpre]; subst.
    destruct a as [d0 | d0 e]; [now elim Ha |]. simpl in Ha.
    cbn [app __connect]. rewrite iteration_fails, Hstart.
    cbn [map took fold_right] in Hshort. rewrite length_cons in Hshort.
    assert (Hsum : 0 <= fold_right Z.add 0 (map took pre)).
    { clear - Hpre. induction Hpre as [| b l Hb Hl IHl]; simpl; [lia |].
      destruct b; simpl in *; [now elim Hb | lia]. }
    replace (now w + d0 - (now w + d0)) with 0 by lia.
    destruct (outage_timeout self <? 0) eqn:E; [apply Z.ltb_lt in E; lia |].
    destruct (connect_recovers_running pre
                (set_outage_start_time (Some (now w + d0)) self)
                (sleep 10 (warn e (pass d0 w))) (now w + d0) d rest)
      as [w' Hw']; [assumption | reflexivity | |].
    + cbn [sleep warn pass now outage_timeout set_outage_start_time]. lia.
    + rewrite Hw'. eauto.
Qed.

(** C5: a failed attempt records the time of the first failure (when none
    is recorded), then either re-raises its error, exactly when the time
    since the first failure exceeds [outage_timeout], or sleeps 10 and
    tries again; every sleep of a run is a sleep of 10; a run that
    connects leaves no first-failure time; a run that raises does so with
    the error of its last attempt and only once the tolerance is exceeded;
    failures that stay within the tolerance are retried until the
    connection succeeds; and failures that go on past it do raise. *)
Theorem connect_retry_policy :
  (forall (d : Z) (e : exn) (self : t) (w : world),
      let t0 := match outage_start_time self with
                | Some t => t
                | None => now w + d
                end in
      iteration (Fails d e) self w =
        if outage_timeout self <? now w + d - t0
        then (Raise e, set_outage_start_time (Some t0) self, warn e (pass d w))
        else (Again, set_outage_start_time (Some t0) self,
              sleep 10 (warn e (pass d w))))
  /\ (forall (attempts : list attempt) (self : t) (w : world),
         exists k, slept (snd (__connect attempts self w))
                   = slept w ++ repeat 10 k)
  /\ (forall (attempts : list attempt) (self self' : t) (w w' : world),
         __connect attempts self w = (Connected, self', w') ->
         outage_start_time self' = None)
  /\ (forall (attempts : list attempt) (self self' : t) (w w' : world) (e : exn),
         __connect attempts self w = (Failed e, self', w') ->
         exists t0 earlier,
           outage_start_time self' = Some t0
           /\ outage_timeout self < now w' - t0
           /\ warned w' = earlier ++ [e]
           /\ (forall t, outage_start_time self = Some t -> t0 = t))
  /\ (forall (pre : list attempt) (self : t) (w : world) (d : Z)
             (rest : list attempt),
         Forall failing pre ->
         outage_start_time self = None ->
         fold_right Z.add 0 (map took pre) + 10 * Z.of_nat (List.length pre)
           <= outage_timeout self ->
         exists self' w', __connect (pre ++ Connects d :: rest) self w
                          = (Connected, self', w')
                          /\ outage_start_time self' = None)
  /\ (forall (attempts : list attempt) (self : t) (w : world),
         Forall failing attempts ->
         outage_start_time self = None ->
         0 <= outage_timeout self < 10 * (Z.of_nat (List.length attempts) - 1) ->
         exists e self' w', __connect attempts self w = (Failed e, self', w')).
Proof.
  split; [exact iteration_fails |].
  split; [exact connect_sleeps_ten |].
  split; [exact connect_connected_clears |].
  split; [exact connect_failed_late |].
  split; [exact connect_recovers | exact connect_outage_raises].
Qed.

Example connect_outage_example :
  __connect [Fails 1 (OtherException "a"); Fails 2 (OtherException "b");
             Fails 1 (OtherException "c"); Fails 1 (OtherException "d");
             Connects 1]
            (__init__ "host" "user" "pw" false 25)
            {| now := 100; slept := []; warned := [] |}
  = (Failed (OtherException "d"),
     set_outage_start_time (Some 101) (__init__ "host" "user" "pw" false 25),
     {| now := 135; slept := [10; 10; 10];
        warned := [OtherException "a"; OtherException "b";
                   OtherException "c"; OtherException "d"] |}).
Proof. reflexivity. Qed.

Lemma connect_retry_policy_witness :
  exists e self' w',
    __connect [Fails 1 (OtherException "a"); Fails 2 (OtherException "b");
               Fails 1 (OtherException "c"); Fails 1 (OtherException "d")]
              (__init__ "host" "user" "pw" false 25)
              {| now := 100; slept := []; warned := [] |}
    = (Failed e, self', w').
Proof.
  apply (proj2 (proj2 (proj2 (proj2 (proj2 connect_retry_policy))))).
  - repeat constructor; simpl; lia.
  - reflexivity.
  - simpl. lia.
Defined.

End ConnectFacts.

(** ** CephNode: exec_command *)

Lemma string_app_assoc (a b c : string) :
  ((a ++ b) ++ c)%string = (a ++ b ++ c)%string.
Proof. induction a as [| x a IH]; simpl; [reflexivity | now rewrite IH]. Qed.

Lemma string_app_nil_r (a : string) : (a ++ "")%string = a.
Proof. induction a as [| x a IH]; simpl; [reflexivity | now rewrite IH]. Qed.

Lemma prefix_inv (s t : string) :
  String.prefix s t = true -> exists rest, t = (s ++ rest)%string.
Proof.
  revert t. induction s as [| c s IH]; intros t H.
  - exists t. reflexivity.
  - destruct t as [| c' t]; simpl in H; [discriminate |].
    destruct (Ascii.ascii_dec c c') as [-> | _]; [| discriminate].
    destruct (IH t H) as [rest ->]. exists rest. reflexivity.
Qed.

(** [Py.str_contains] is substring search. *)
Lemma str_contains_spec (needle hay : string) :
  Py.str_contains needle hay = true
  <-> exists before after, hay = (before ++ needle ++ after)%string.
Proof.
  split.
  - induction hay as [| c hay IH]; cbn [Py.str_contains]; intros H;
      apply orb_true_iff in H; destruct H as [H | H].
    + apply prefix_inv in H. destruct H as [rest ->]. now exists "", rest.
    + discriminate.
    + apply prefix_inv in H. destruct H as [rest ->]. now exists "", rest.
    + destruct (IH H) as [before [after ->]].
      now exists (String c before), after.
  - intros [before [after ->]]. apply str_contains_app.
Qed.

Module NodeFacts.
Import CephNode.

Lemma failure_message_carries (c err ip : string) :
  Py.str_contains c (failure_message c err ip) = true
  /\ Py.str_contains err (failure_message c err ip) = true
  /\ Py.str_contains ip (failure_message c err ip) = true.
Proof.
  unfold failure_message. repeat split.
  - apply (str_contains_app c "").
  - rewrite <- (string_app_assoc c " Error:  ").
    apply str_contains_app.
  - apply str_contains_spec.
    exists (c ++ " Error:  " ++ err ++ " ")%string, "".
    rewrite string_app_nil_r, !string_app_assoc. reflexivity.
Qed.

Lemma exec_command_standard (self : t) (kw : kwargs) :
  long_running kw = false ->
  rearm self = None ->
  exec_command self kw =
    match try_submit (selected self kw) (cmd kw) (effective_timeout kw) with
    | Raised e => (Raises e, self, [Running (cmd kw) (ip_address self)])
    | Ok (None, logged) =>
        (Raises (AttributeError "'NoneType' object has no attribute 'channel'"),
         self, [Running (cmd kw) (ip_address self)] ++ logged)
    | Ok (Some (stdout, stderr), logged) =>
        let log1 := [Running (cmd kw) (ip_address self)] ++ logged in
        let status := recv_exit_status stdout in
        if checks_exit_code kw then
          if status =? 0 then
            (Returns stdout stderr, set_exit_status status self,
             log1 ++ [CommandCompleted])
          else
            (Raises (CommandFailed (failure_message (cmd kw) (data stderr)
                                                    (ip_address self))),
             set_exit_status status self,
             log1 ++ [ErrorDuringCmd status (effective_timeout kw)])
        else (Returns stdout stderr, set_exit_status status self, log1)
    end.
Proof.
  intros Hstd Harm. unfold exec_command. rewrite Harm, Hstd.
  destruct (try_submit _ _ _) as [[[[so se] |] logged] | e]; reflexivity.
Qed.

(** C6: in standard mode, once the command has been submitted: with
    [check_ec] true or absent, exit status 0 returns the pair
    [(stdout, stderr)] and any other status raises [CommandFailed] with a
    message made of the command text, what [stderr] holds and the address
    of the node; with [check_ec] false the pair is returned whatever the
    status.  The status is recorded on the node in every case. *)
Theorem exec_command_check_ec
        (self : t) (kw : kwargs) (stdin stdout stderr : stream) :
  long_running kw = false ->
  rearm self = None ->
  submit (selected self kw) (cmd kw) (effective_timeout kw)
  = Started stdin stdout stderr ->
  let status := recv_exit_status stdout in
  let result := fst (fst (exec_command self kw)) in
  let message := failure_message (cmd kw) (data stderr) (ip_address self) in
  exit_status (snd (fst (exec_command self kw))) = Some status
  /\ (check_ec kw <> Some false -> status = 0 -> result = Returns stdout stderr)
  /\ (check_ec kw <> Some false -> status <> 0 ->
      result = Raises (CommandFailed message)
      /\ Py.str_contains (cmd kw) message = true
      /\ Py.str_contains (data stderr) message = true
      /\ Py.str_contains (ip_address self) message = true)
  /\ (check_ec kw = Some false -> result = Returns stdout stderr).
Proof.
  intros Hstd Harm Hsub status result message.
  unfold result. rewrite (exec_command_standard self kw Hstd Harm).
  unfold try_submit. rewrite Hsub. cbv zeta. fold status.
  unfold checks_exit_code.
  split; [| split; [| split]].
  - destruct (check_ec kw) as [[|] |]; destruct (status =? 0); reflexivity.
  - intros Hec H0. rewrite H0.
    destruct (check_ec kw) as [[|] |]; reflexivity.
  - intros Hec Hne. split; [| apply failure_message_carries].
    apply Z.eqb_neq in Hne. rewrite Hne.
    destruct (check_ec kw) as [[|] |]; try reflexivity. now elim Hec.
  - intros ->. reflexivity.
Qed.

Lemma exec_command_check_ec_witness :
  fst (fst (exec_command
              (Fixtures.node_with
                 (Fixtures.link
                    (Started Fixtures.quiet (Fixtures.stdout_of "" 2)
                             (Fixtures.stdout_of "ls: cannot access /x" 2))
                    (Opened []))
                 [])
              (Fixtures.call "ls /x" None false)))
  = Raises (CommandFailed "ls /x Error:  ls: cannot access /x 10.0.0.5").
Proof.
  pose proof (exec_command_check_ec
                (Fixtures.node_with
                   (Fixtures.link
                      (Started Fixtures.quiet (Fixtures.stdout_of "" 2)
                               (Fixtures.stdout_of "ls: cannot access /x" 2))
                      (Opened []))
                   [])
                (Fixtures.call "ls /x" None false)
                Fixtures.quiet (Fixtures.stdout_of "" 2)
                (Fixtures.stdout_of "ls: cannot access /x" 2)
                eq_refl eq_refl eq_refl) as H.
  cbv zeta in H. destruct H as [_ [_ [H _]]].
  apply H; discriminate.
Defined.

Example exec_command_unchecked_example :
  fst (fst (exec_command
              (Fixtures.node_with
                 (Fixtures.link
                    (Started Fixtures.quiet (Fixtures.stdout_of "" 2)
                             (Fixtures.stdout_of "ls: cannot access /x" 2))
                    (Opened []))
                 [])
              (Fixtures.call "ls /x" (Some false) false)))
  = Returns (Fixtures.stdout_of "" 2) (Fixtures.stdout_of "ls: cannot access /x" 2).
Proof. reflexivity. Qed.

(** An exception of another kind raised by the submission leaves
    [exec_command] as it is. *)
Lemma exec_command_other_exception (self : t) (kw : kwargs) (e : exn) :
  long_running kw = false ->
  rearm self = None ->
  submit (selected self kw) (cmd kw) (effective_timeout kw) = SubmitRaises e ->
  (forall msg, e <> SSHException msg) ->
  fst (fst (exec_command self kw)) = Raises e.
Proof.
  intros Hstd Harm Hsub Hne.
  rewrite (exec_command_standard self kw Hstd Harm).
  unfold try_submit. rewrite Hsub.
  destruct e; try reflexivity. now elim (Hne msg).
Qed.

(** C3, as the specification words it, fails: an [SSHException] whose
    text does not contain the channel timeout text is not handed to the
    caller either; it is swallowed like the others. *)
Lemma exec_command_ssh_exception_counterexample :
  Py.str_contains channel_timeout_text "No existing session" = false
  /\ fst (fst (exec_command
                 (Fixtures.node_with
                    (Fixtures.link
                       (SubmitRaises (SSHException "No existing session"))
                       (Opened []))
                    [])
                 (Fixtures.call "uptime" None false)))
     = Raises (AttributeError "'NoneType' object has no attribute 'channel'")
  /\ fst (fst (exec_command
                 (Fixtures.node_with
                    (Fixtures.link
                       (SubmitRaises (SSHException "No existing session"))
                       (Opened []))
                    [])
                 (Fixtures.call "uptime" None false)))
     <> Raises (SSHException "No existing session").
Proof. repeat split. discriminate. Qed.

(** C3 (amended): in standard mode an [SSHException] raised by the
    submission is logged and swallowed whatever its text: it is never
    handed to the caller, and the node records no exit status.  The
    channel timeout text only decides whether the line "channel reset
    error" is logged as well. *)
Theorem exec_command_swallows_ssh_exception
        (self : t) (kw : kwargs) (msg : string) :
  long_running kw = false ->
  rearm self = None ->
  submit (selected self kw) (cmd kw) (effective_timeout kw)
  = SubmitRaises (SSHException msg) ->
  (forall m, fst (fst (exec_command self kw)) <> Raises (SSHException m))
  /\ snd (fst (exec_command self kw)) = self
  /\ In (ExceptionDuringCmd msg) (snd (exec_command self kw))
  /\ (In ChannelResetError (snd (exec_command self kw))
      <-> Py.str_contains channel_timeout_text msg = true).
Proof.
  intros Hstd Harm Hsub.
  rewrite (exec_command_standard self kw Hstd Harm).
  unfold try_submit. rewrite Hsub. cbn [fst snd].
  split; [intros m; discriminate |].
  split; [reflexivity |].
  split; [simpl; auto |].
  destruct (Py.str_contains channel_timeout_text msg); simpl; split.
  - reflexivity.
  - auto.
  - intros [H | [H | []]]; discriminate.
  - discriminate.
Qed.

Lemma exec_command_swallows_ssh_exception_witness :
  In ChannelResetError
     (snd (exec_command
             (Fixtures.node_with
                (Fixtures.link
                   (SubmitRaises (SSHException "Timeout openning channel."))
                   (Opened []))
                [])
             (Fixtures.call "uptime" None false))).
Proof.
  apply (exec_command_swallows_ssh_exception
           (Fixtures.node_with
              (Fixtures.link
                 (SubmitRaises (SSHException "Timeout openning channel."))
                 (Opened []))
              [])
           (Fixtures.call "uptime" None false)
           "Timeout openning channel." eq_refl eq_refl eq_refl).
  reflexivity.
Defined.

(** What follows the swallowed exception: [stdout] is still [None] when
    its channel is asked for the exit status. *)
Lemma exec_command_after_ssh_exception (self : t) (kw : kwargs) (msg : string) :
  long_running kw = false ->
  rearm self = None ->
  submit (selected self kw) (cmd kw) (effective_timeout kw)
  = SubmitRaises (SSHException msg) ->
  fst (fst (exec_command self kw))
  = Raises (AttributeError "'NoneType' object has no attribute 'channel'").
Proof.
  intros Hstd Harm Hsub.
  rewrite (exec_command_standard self kw Hstd Harm).
  unfold try_submit. now rewrite Hsub.
Qed.

Lemma poll_until_ready (pre : list tick) :
  forall (read : string) (log : list record) (ec : Z) (rest : list tick),
    Forall waiting pre ->
    fst (poll (pre ++ ExitStatusReady ec :: rest) read log)
    = Some ((read ++ received pre)%string, ec).
Proof.
  induction pre as [| e pre IH]; intros read log ec rest Hall.
  - simpl. now rewrite string_app_nil_r.
  - inversion Hall as [| e' pre' He Hpre]; subst.
    destruct e as [ec' | rl xl]; [now elim He |].
    cbn [app poll received].
    destruct rl as [d1 |], xl as [d2 |]; cbn [bytes];
      rewrite (IH _ _ ec rest Hpre); rewrite ?string_app_assoc; reflexivity.
Qed.

Lemma exec_command_long_running (self : t) (kw : kwargs) :
  long_running kw = true ->
  rearm self = None ->
  exec_command self kw =
    match open_session (selected self kw) (cmd kw) with
    | OpenRaises e =>
        (Raises e, self,
         [Running (cmd kw) (ip_address self); LongRunningCommand])
    | Opened events =>
        match poll events ""
                   [Running (cmd kw) (ip_address self); LongRunningCommand] with
        | (Some (read, ec), log2) => (ReturnsPair read ec, self, log2)
        | (None, log2) => (Polling, self, log2)
        end
    end.
Proof.
  intros Hlong Harm. unfold exec_command. now rewrite Harm, Hlong.
Qed.

Lemma exec_command_ignores_check_ec (self : t) (kw : kwargs) (v : option bool) :
  long_running kw = true ->
  exec_command self (with_check_ec v kw) = exec_command self kw.
Proof.
  intros Hlong. unfold exec_command.
  change (long_running (with_check_ec v kw)) with (long_running kw).
  rewrite Hlong. reflexivity.
Qed.

(** C7: in long running mode the loop gathers what the channel hands over
    until the exit status is ready and returns the pair (gathered output,
    exit status); the value of [check_ec] changes nothing, the node
    records no exit status, and once the session is open the call can
    only return such a pair (or still be polling): no [CommandFailed] is
    raised, whatever the exit status. *)
Theorem exec_command_long_running_pair
        (self : t) (kw : kwargs) (pre rest : list tick) (ec : Z) :
  long_running kw = true ->
  rearm self = None ->
  open_session (selected self kw) (cmd kw)
  = Opened (pre ++ ExitStatusReady ec :: rest) ->
  Forall waiting pre ->
  fst (fst (exec_command self kw)) = ReturnsPair (received pre) ec
  /\ snd (fst (exec_command self kw)) = self
  /\ (forall v, exec_command self (with_check_ec v kw) = exec_command self kw)
  /\ (forall msg, fst (fst (exec_command self kw)) <> Raises (CommandFailed msg)).
Proof.
  intros Hlong Harm Hopen Hwait.
  assert (Hres : fst (fst (exec_command self kw)) = ReturnsPair (received pre) ec
                 /\ snd (fst (exec_command self kw)) = self).
  { rewrite (exec_command_long_running self kw Hlong Harm), Hopen.
    pose proof (poll_until_ready pre ""
                  [Running (cmd kw) (ip_address self); LongRunningCommand]
                  ec rest Hwait) as Hp.
    destruct (poll _ _ _) as [[[read ec'] |] log2]; simpl in Hp.
    - injection Hp as -> ->. split; reflexivity.
    - discriminate. }
  destruct Hres as [Hout Hself].
  split; [exact Hout |]. split; [exact Hself |].
  split; [intros v; now apply exec_command_ignores_check_ec |].
  intros msg. rewrite Hout. discriminate.
Qed.

Lemma exec_command_long_running_pair_witness :
  fst (fst (exec_command
              (Fixtures.node_with
                 (Fixtures.link (SubmitRaises (OtherException "unused"))
                    (Opened [Selected (Some "ab") None;
                             Selected None None;
                             Selected (Some "cd") (Some "ef");
                             ExitStatusReady 3;
                             Selected (Some "late") None]))
                 [])
              (Fixtures.call "make -j8" None true)))
  = ReturnsPair "abcdef" 3.
Proof.
  apply (exec_command_long_running_pair
           (Fixtures.node_with
              (Fixtures.link (SubmitRaises (OtherException "unused"))
                 (Opened [Selected (Some "ab") None;
                          Selected None None;
                          Selected (Some "cd") (Some "ef");
                          ExitStatusReady 3;
                          Selected (Some "late") None]))
              [])
           (Fixtures.call "make -j8" None true)
           [Selected (Some "ab") None; Selected None None;
            Selected (Some "cd") (Some "ef")]
           [Selected (Some "late") None] 3 eq_refl eq_refl eq_refl).
  repeat constructor.
Defined.

(** Whatever the channel shows, an open session never ends in an
    exception. *)
Lemma exec_command_long_running_never_raises (self : t) (kw : kwargs)
      (events : list tick) :
  long_running kw = true ->
  rearm self = None ->
  open_session (selected self kw) (cmd kw) = Opened events ->
  forall e, fst (fst (exec_command self kw)) <> Raises e.
Proof.
  intros Hlong Harm Hopen e.
  rewrite (exec_command_long_running self kw Hlong Harm), Hopen.
  destruct (poll _ _ _) as [[[read ec] |] log2]; discriminate.
Qed.

(** ** CephNode: roles and objects *)

Lemma object_roles_app (l1 l2 : list (option ceph_object)) :
  object_roles (l1 ++ l2) = object_roles l1 ++ object_roles l2.
Proof.
  induction l1 as [| [o |] l1 IH]; simpl; [reflexivity | now rewrite IH | exact IH].
Qed.

Lemma role_list_of_roles (self : t) :
  RolesContainer.role_list (role_ self) =
    match object_roles (ceph_object_list self) with
    | [] => ["pool"]
    | r :: rest => r :: rest
    end.
Proof.
  unfold role_. destruct (object_roles (ceph_object_list self)) as [| r rest].
  - reflexivity.
  - apply init_nonempty_list. discriminate.
Qed.

Lemma factory_role (node : node_ref) (oid : nat) (r : string) :
  object_roles [CephObjectFactory.create_ceph_object node oid r]
  = if (r =? "pool")%string then [] else [r].
Proof.
  rewrite create_ceph_object_cases.
  destruct (r =? "installer")%string eqn:Hi.
  - apply String.eqb_eq in Hi. subst. reflexivity.
  - destruct (Py.in_list (Py.VStr r) CephObjectFactory.DEMON_ROLES) eqn:Hd.
    + destruct (r =? "pool")%string eqn:Hp; [| reflexivity].
      apply String.eqb_eq in Hp. subst. discriminate.
    + destruct (r =? "pool")%string; reflexivity.
Qed.

(** A created object adds its role at the end; creating for ["pool"] adds
    an empty entry and no role. *)
Lemma create_ceph_object_roles (self : t) (r : string) :
  object_roles (ceph_object_list (create_ceph_object self r))
  = object_roles (ceph_object_list self)
    ++ (if (r =? "pool")%string then [] else [r]).
Proof.
  unfold create_ceph_object. simpl. now rewrite object_roles_app, factory_role.
Qed.

Lemma list_remove_split (x : option ceph_object) (l : list (option ceph_object)) :
  forall l', list_remove x l = Some l' ->
             exists l1 y l2, l = l1 ++ y :: l2
                             /\ same_entry y x = true
                             /\ l' = l1 ++ l2.
Proof.
  induction l as [| y l IH]; intros l'; simpl; [discriminate |].
  destruct (same_entry y x) eqn:E.
  - intros [= <-]. now exists [], y, l.
  - destruct (list_remove x l) as [l0 |]; simpl; [| discriminate].
    intros [= <-]. destruct (IH l0 eq_refl) as [l1 [z [l2 [-> [Hz ->]]]]].
    now exists (y :: l1), z, l2.
Qed.

(** A removed object takes its one entry away, and with it its role. *)
Lemma remove_ceph_object_roles (self self' : t) (o : option ceph_object) :
  remove_ceph_object self o = Ok self' ->
  exists l1 y l2,
    ceph_object_list self = l1 ++ y :: l2
    /\ same_entry y o = true
    /\ ceph_object_list self' = l1 ++ l2
    /\ object_roles (ceph_object_list self')
       = object_roles l1 ++ object_roles l2.
Proof.
  unfold remove_ceph_object.
  destruct (list_remove o (ceph_object_list self)) as [l' |] eqn:E; [| discriminate].
  intros [= <-]. destruct (list_remove_split _ _ _ E) as [l1 [y [l2 [H1 [H2 ->]]]]].
  exists l1, y, l2. simpl. now rewrite object_roles_app.
Qed.

(** C8, as the specification words it, fails: once its only object is
    removed a node has no object left, yet reading its role gives
    [["pool"]]. *)
Lemma role_without_objects_counterexample :
  exists self' : t,
    run [Create "mon"; Remove (Some Fixtures.mon_object)]
        (Fixtures.node_with (Fixtures.link (SubmitRaises (OtherException "")) (Opened [])) [])
    = Ok self'
    /\ ceph_object_list self' = []
    /\ RolesContainer.role_list (role_ self') = ["pool"]
    /\ RolesContainer.role_list (role_ self')
       <> object_roles (ceph_object_list self').
Proof.
  eexists. split; [reflexivity |]. repeat split. discriminate.
Qed.

(** C8 (amended): after any sequence of [create_ceph_object] and
    [remove_ceph_object] calls, reading the role of the node gives the
    container built from the roles of the objects now in its list: exactly
    those roles, in list order, when there is at least one, and the single
    role ["pool"] when there is none.  Nothing else of the node takes part:
    two nodes with the same object list read the same role. *)
Theorem role_is_derived (calls : list call) (self self' : t) :
  run calls self = Ok self' ->
  let roles := object_roles (ceph_object_list self') in
  role_ self' = RolesContainer.__init__ (Py.VList roles)
  /\ (roles <> [] -> RolesContainer.role_list (role_ self') = roles)
  /\ (roles = [] -> RolesContainer.role_list (role_ self') = ["pool"])
  /\ (forall other : t,
         ceph_object_list other = ceph_object_list self' ->
         role_ other = role_ self')
  /\ (forall r : string,
         r <> "pool" ->
         RolesContainer.role_list (role_ (create_ceph_object self' r))
         = roles ++ [r]).
Proof.
  intros _ roles. split; [reflexivity |].
  split; [| split; [| split]].
  - intros Hne. rewrite role_list_of_roles. fold roles.
    destruct roles; [now elim Hne | reflexivity].
  - intros Hnil. rewrite role_list_of_roles. fold roles. now rewrite Hnil.
  - intros other Hsame. unfold role_. now rewrite Hsame.
  - intros r Hr. rewrite role_list_of_roles, create_ceph_object_roles.
    fold roles. apply String.eqb_neq in Hr. rewrite Hr.
    destruct roles; reflexivity.
Qed.

Lemma role_is_derived_witness :
  match run [Create "mon"; Create "pool"; Create "osd";
             Remove (Some Fixtures.mon_object)]
            (Fixtures.node_with
               (Fixtures.link (SubmitRaises (OtherException "")) (Opened [])) [])
  with
  | Ok self' => RolesContainer.role_list (role_ self') = ["osd"]
  | Raised _ => False
  end.
Proof.
  pose proof (role_is_derived
                [Create "mon"; Create "pool"; Create "osd";
                 Remove (Some Fixtures.mon_object)]
                (Fixtures.node_with
                   (Fixtures.link (SubmitRaises (OtherException "")) (Opened [])) []))
    as H.
  cbv zeta in H.
  destruct (run _ _) as [self' | e] eqn:E.
  - destruct (H self' eq_refl) as [_ [Hroles _]].
    injection E as <-. apply Hroles. discriminate.
  - discriminate E.
Defined.

(** ** CephNode: get_ceph_demon and get_ceph_objects *)

Lemma select_objects (cond : string -> bool) (objects : list ceph_object) :
  select cond (map Some objects)
  = Ok (filter (fun o => cond (role o)) objects).
Proof.
  induction objects as [| o objects IH]; simpl; [reflexivity |].
  now rewrite IH.
Qed.

Lemma filter_all {A : Type} (l : list A) : filter (fun _ => true) l = l.
Proof. induction l as [| x l IH]; simpl; [reflexivity | now rewrite IH]. Qed.

Lemma get_ceph_demon_unset (self : t) : get_ceph_demon self Py.VNone = Ok [].
Proof. reflexivity. Qed.

(** The objects built by [__init__] leave no empty entry. *)
Lemma init_objects_all_objects (node : node_ref) (roles : list string) :
  forall oid, exists objects, init_objects node oid roles = map Some objects.
Proof.
  induction roles as [| r roles IH]; intros oid; cbn [init_objects].
  - now exists [].
  - rewrite str_eqb_spec. destruct (r =? "pool")%string eqn:Hp; cbn [negb].
    + apply IH.
    + destruct (IH (S oid)) as [objects ->].
      rewrite create_ceph_object_cases, Hp.
      destruct (r =? "installer")%string;
        [| destruct (Py.in_list _ _)];
        eexists (_ :: objects); reflexivity.
Qed.

(** C10, on the code: [create_ceph_object('pool')] appends the [None] the
    factory returns, and neither query skips such an entry the way the
    [role] property does; on the node below, which holds a "mon" object
    and one empty entry, [get_ceph_demon('mon')] and [get_ceph_objects()]
    both stop with an [AttributeError] instead of returning objects. *)
Theorem get_ceph_demon_empty_entry :
  ceph_object_list
    (create_ceph_object
       (Fixtures.node_with
          (Fixtures.link (SubmitRaises (OtherException "")) (Opened []))
          [Some Fixtures.mon_object])
       "pool")
  = [Some Fixtures.mon_object; None]
  /\ get_ceph_demon
       (create_ceph_object
          (Fixtures.node_with
             (Fixtures.link (SubmitRaises (OtherException "")) (Opened []))
             [Some Fixtures.mon_object])
          "pool")
       (Py.VStr "mon")
     = Raised no_attribute_role
  /\ get_ceph_objects
       (create_ceph_object
          (Fixtures.node_with
             (Fixtures.link (SubmitRaises (OtherException "")) (Opened []))
             [Some Fixtures.mon_object])
          "pool")
       Py.VNone
     = Raised no_attribute_role.
Proof. repeat split. Qed.

(** On a node whose list holds objects only (every node as [__init__]
    builds it), [get_ceph_demon] with no role returns the empty list while
    [get_ceph_objects] with no role returns every object of the node; with
    a role given (a non-empty string) both return exactly the objects whose
    role equals it, in list order. *)
Lemma get_ceph_demon_by_role
        (self : t) (objects : list ceph_object) (r : string) :
  ceph_object_list self = map Some objects ->
  get_ceph_demon self Py.VNone = Ok []
  /\ get_ceph_objects self Py.VNone = Ok objects
  /\ (r <> "" ->
      get_ceph_demon self (Py.VStr r)
      = Ok (filter (fun o => (role o =? r)%string) objects))
  /\ (r <> "" ->
      get_ceph_objects self (Py.VStr r)
      = Ok (filter (fun o => (role o =? r)%string) objects)).
Proof.
  intros Hobjects. split; [reflexivity |].
  unfold get_ceph_demon, get_ceph_objects. rewrite Hobjects, !select_objects.
  split; [| split]; simpl.
  - now rewrite filter_all.
  - intros Hr. apply String.eqb_neq in Hr. rewrite Hr. reflexivity.
  - intros Hr. apply String.eqb_neq in Hr. rewrite Hr. simpl.
    f_equal. apply filter_ext. intros o. apply orb_false_r.
Qed.

Lemma get_ceph_demon_by_role_example :
  get_ceph_demon
    (Fixtures.node_with
       (Fixtures.link (SubmitRaises (OtherException "")) (Opened []))
       [Some Fixtures.mon_object; Some (new CephDemon 1%nat "osd" 7%nat);
        Some (new CephObject 2%nat "mon" 7%nat)])
    (Py.VStr "mon")
  = Ok [Fixtures.mon_object; new CephObject 2%nat "mon" 7%nat].
Proof.
  apply (get_ceph_demon_by_role
           (Fixtures.node_with
              (Fixtures.link (SubmitRaises (OtherException "")) (Opened []))
              [Some Fixtures.mon_object; Some (new CephDemon 1%nat "osd" 7%nat);
               Some (new CephObject 2%nat "mon" 7%nat)])
           [Fixtures.mon_object; new CephDemon 1%nat "osd" 7%nat;
            new CephObject 2%nat "mon" 7%nat]
           "mon" eq_refl).
  discriminate.
Defined.

End NodeFacts.

(** ** Ceph: equality as a preorder, and the role queries *)

Module ClusterFacts.

Lemma eq_of_members (A B : Ceph.t) :
  (forall n, In n (Ceph.node_list A) -> In n (Ceph.node_list B)) ->
  Ceph.__eq__ A (Ceph.Cluster B) = true.
Proof. apply Ceph_eq_subset. Qed.

Lemma members_of_eq (A B : Ceph.t) :
  Ceph.__eq__ A (Ceph.Cluster B) = true ->
  forall n, In n (Ceph.node_list A) -> In n (Ceph.node_list B).
Proof. apply Ceph_eq_subset. Qed.

(** [==] on clusters is reflexive and transitive; it holds both ways
    exactly when the two clusters hold the same nodes (in whatever order
    and number), and a cluster without nodes equals every cluster. *)
Theorem Ceph_eq_preorder (A B C : Ceph.t) :
  Ceph.__eq__ A (Ceph.Cluster A) = true
  /\ (Ceph.__eq__ A (Ceph.Cluster B) = true ->
      Ceph.__eq__ B (Ceph.Cluster C) = true ->
      Ceph.__eq__ A (Ceph.Cluster C) = true)
  /\ (Ceph.__eq__ A (Ceph.Cluster B) = true
      /\ Ceph.__eq__ B (Ceph.Cluster A) = true
      <-> (forall n, In n (Ceph.node_list A) <-> In n (Ceph.node_list B)))
  /\ (Ceph.node_list A = [] -> Ceph.__eq__ A (Ceph.Cluster B) = true).
Proof.
  split; [apply eq_of_members; auto |].
  split; [| split].
  - intros HAB HBC. apply eq_of_members. intros n Hn.
    apply (members_of_eq B C HBC), (members_of_eq A B HAB), Hn.
  - split.
    + intros [HAB HBA] n. split.
      * apply (members_of_eq A B HAB).
      * apply (members_of_eq B A HBA).
    + intros H. split; apply eq_of_members; intros n Hn; now apply H.
  - intros Hnil. apply eq_of_members. rewrite Hnil. intros n [].
Qed.

Lemma Ceph_eq_preorder_witness :
  Ceph.__eq__ {| Ceph.name := "a"; Ceph.node_list := [1%nat] |}
              (Ceph.Cluster {| Ceph.name := "c";
                               Ceph.node_list := [3%nat; 2%nat; 1%nat] |}) = true.
Proof.
  apply (proj1 (proj2 (Ceph_eq_preorder
                         {| Ceph.name := "a"; Ceph.node_list := [1%nat] |}
                         {| Ceph.name := "b"; Ceph.node_list := [2%nat; 1%nat] |}
                         {| Ceph.name := "c";
                            Ceph.node_list := [3%nat; 2%nat; 1%nat] |})));
    reflexivity.
Defined.

Section Heap.

Variable heap : node_ref -> CephNode.t.

Lemma role_eq_str (self : CephNode.t) (r : string) :
  RolesContainer.__eq__ (CephNode.role_ self) (Py.VStr r) = true
  <-> In r (CephNode.object_roles (CephNode.ceph_object_list self))
      \/ (r = "pool"
          /\ CephNode.object_roles (CephNode.ceph_object_list self) = []).
Proof.
  unfold RolesContainer.__eq__. cbn [Py.has_iter].
  rewrite NodeFacts.role_list_of_roles.
  assert (H : forall l, (if Py.in_list (Py.VStr r) l then true else false) = true
                        <-> In r l).
  { intros l. rewrite <- in_list_str. destruct (Py.in_list _ _); split; congruence. }
  rewrite H.
  destruct (CephNode.object_roles _) as [| x rest]; simpl.
  - split.
    + intros [<- | []]. right. split; reflexivity.
    + intros [[] | [-> _]]. now left.
  - split.
    + intros Hin. now left.
    + intros [Hin | [_ Hnil]]; [exact Hin | discriminate].
Qed.

(** [get_nodes] without a role (or with the empty string) returns the
    node list as it is; with a role [r] it keeps, in order, the nodes that
    hold an object of role [r], and for ["pool"] also the nodes that hold
    no object at all. *)
Theorem get_nodes_by_role (self : Ceph.t) (r : string) :
  r <> "" ->
  CephCluster.get_nodes heap self Py.VNone = Ceph.node_list self
  /\ CephCluster.get_nodes heap self (Py.VStr "") = Ceph.node_list self
  /\ CephCluster.get_nodes heap self (Py.VStr r)
     = filter (fun n =>
                 existsb (String.eqb r)
                         (CephNode.object_roles
                            (CephNode.ceph_object_list (heap n)))
                 || ((r =? "pool")%string
                     && match CephNode.object_roles
                                (CephNode.ceph_object_list (heap n)) with
                        | [] => true
                        | _ :: _ => false
                        end))
              (Ceph.node_list self)
  /\ (forall n,
         In n (CephCluster.get_nodes heap self (Py.VStr r))
         <-> In n (Ceph.node_list self)
             /\ (In r (CephNode.object_roles
                         (CephNode.ceph_object_list (heap n)))
                 \/ (r = "pool"
                     /\ CephNode.object_roles
                          (CephNode.ceph_object_list (heap n)) = []))).
Proof.
  intros Hr. split; [reflexivity |]. split; [reflexivity |].
  assert (Htruthy : Py.truthy (Py.VStr r) = true).
  { simpl. apply String.eqb_neq in Hr. now rewrite Hr. }
  unfold CephCluster.get_nodes. rewrite Htruthy. split.
  - apply filter_ext. intros n.
    apply eq_true_iff_eq. rewrite role_eq_str, orb_true_iff, andb_true_iff.
    rewrite existsb_exists, String.eqb_eq.
    destruct (CephNode.object_roles _) as [| x rest].
    + split.
      * intros [[] | [-> _]]. now right.
      * intros [[y [[] _]] | [-> _]]. right. now split.
    + split.
      * intros [Hin | [_ Hnil]]; [| discriminate].
        left. exists r. split; [exact Hin | apply String.eqb_refl].
      * intros [[y [Hin Hy]] | [_ Hf]]; [| discriminate].
        apply String.eqb_eq in Hy. subst. now left.
  - intros n. rewrite filter_In, role_eq_str. reflexivity.
Qed.

End Heap.

End ClusterFacts.

Module ClusterObjectFacts.

Lemma flat_map_filter {A B : Type} (f : A -> list B) (p : A -> bool) (l : list A) :
  (forall a, In a l -> p a = false -> f a = []) ->
  flat_map f (filter p l) = flat_map f l.
Proof.
  induction l as [| a l IH]; intros H; simpl; [reflexivity |].
  destruct (p a) eqn:E; simpl.
  - rewrite IH; [reflexivity | intros b Hb; apply H; now right].
  - rewrite (H a (or_introl eq_refl) E). simpl.
    apply IH. intros b Hb. apply H. now right.
Qed.

Lemma object_roles_objects (objects : list ceph_object) :
  CephNode.object_roles (map Some objects) = map role objects.
Proof. induction objects as [| o l IH]; simpl; [reflexivity | now rewrite IH]. Qed.

Lemma filter_none_without_role (objects : list ceph_object) (r : string) :
  ~ In r (map role objects) ->
  filter (fun o => (role o =? r)%string) objects = [].
Proof.
  induction objects as [| o l IH]; simpl; intros H; [reflexivity |].
  destruct (role o =? r)%string eqn:E.
  - apply String.eqb_eq in E. elim H. now left.
  - apply IH. intros Hin. apply H. now right.
Qed.

Section Heap.

Variable heap : node_ref -> CephNode.t.
Variable objects : node_ref -> list ceph_object.

Lemma node_objects_by_role (n : node_ref) (r : string) :
  CephNode.ceph_object_list (heap n) = map Some (objects n) ->
  r <> "" ->
  CephNode.get_ceph_objects (heap n) (Py.VStr r)
  = Ok (filter (fun o => (role o =? r)%string) (objects n)).
Proof.
  intros Hn Hr. unfold CephNode.get_ceph_objects.
  rewrite Hn, NodeFacts.select_objects. f_equal.
  apply filter_ext. intros o. simpl.
  apply String.eqb_neq in Hr. rewrite Hr. apply orb_false_r.
Qed.

Lemma node_objects_unset (n : node_ref) :
  CephNode.ceph_object_list (heap n) = map Some (objects n) ->
  CephNode.get_ceph_objects (heap n) Py.VNone = Ok (objects n).
Proof.
  intros Hn. unfold CephNode.get_ceph_objects.
  rewrite Hn, NodeFacts.select_objects. simpl. now rewrite NodeFacts.filter_all.
Qed.

Lemma gather_by_role (nodes : list node_ref) (r : string) :
  (forall n, In n nodes ->
             CephNode.ceph_object_list (heap n) = map Some (objects n)) ->
  r <> "" ->
  CephCluster.gather heap nodes (Py.VStr r)
  = Ok (flat_map (fun n => filter (fun o => (role o =? r)%string) (objects n))
                 nodes).
Proof.
  intros Hall Hr. induction nodes as [| n nodes IH]; simpl; [reflexivity |].
  rewrite (node_objects_by_role n r (Hall n (or_introl eq_refl)) Hr).
  rewrite IH; [reflexivity | intros m Hm; apply Hall; now right].
Qed.

Lemma gather_unset (nodes : list node_ref) :
  (forall n, In n nodes ->
             CephNode.ceph_object_list (heap n) = map Some (objects n)) ->
  CephCluster.gather heap nodes Py.VNone = Ok (flat_map objects nodes).
Proof.
  intros Hall. induction nodes as [| n nodes IH]; simpl; [reflexivity |].
  rewrite (node_objects_unset n (Hall n (or_introl eq_refl))).
  rewrite IH; [reflexivity | intros m Hm; apply Hall; now right].
Qed.

(** On a cluster whose nodes hold objects only, [get_ceph_objects]
    without a role returns the objects of all the nodes, node after node;
    with a role [r] it returns, node after node, the objects of role [r]
    of all the nodes: choosing the nodes by role first loses no object. *)
Theorem get_ceph_objects_all_nodes (self : Ceph.t) (r : string) :
  (forall n, In n (Ceph.node_list self) ->
             CephNode.ceph_object_list (heap n) = map Some (objects n)) ->
  r <> "" ->
  CephCluster.get_ceph_objects heap self Py.VNone
  = Ok (flat_map objects (Ceph.node_list self))
  /\ CephCluster.get_ceph_objects heap self (Py.VStr r)
     = Ok (flat_map (fun n => filter (fun o => (role o =? r)%string) (objects n))
                    (Ceph.node_list self)).
Proof.
  intros Hall Hr. split.
  - unfold CephCluster.get_ceph_objects, CephCluster.get_nodes.
    cbn [Py.truthy]. now apply gather_unset.
  - unfold CephCluster.get_ceph_objects, CephCluster.get_nodes.
    assert (Htruthy : Py.truthy (Py.VStr r) = true).
    { simpl. apply String.eqb_neq in Hr. now rewrite Hr. }
    rewrite Htruthy, gather_by_role.
    + f_equal. apply flat_map_filter. intros n Hn Hrole.
      apply filter_none_without_role. intros Hin.
      assert (Ht : RolesContainer.__eq__ (CephNode.role_ (heap n)) (Py.VStr r)
                   = true).
      { apply ClusterFacts.role_eq_str. left.
        rewrite (Hall n Hn), object_roles_objects. exact Hin. }
      congruence.
    + intros n Hn. apply Hall. apply filter_In in Hn. tauto.
    + exact Hr.
Qed.

End Heap.

End ClusterObjectFacts.

Lemma get_nodes_by_role_witness :
  In 3%nat (CephCluster.get_nodes ClusterFixtures.heap ClusterFixtures.cluster
                                  (Py.VStr "pool")).
Proof.
  apply (proj2 (proj2 (proj2 (ClusterFacts.get_nodes_by_role
                                ClusterFixtures.heap ClusterFixtures.cluster
                                "pool" ltac:(discriminate))))).
  split; [simpl; auto |]. right. split; reflexivity.
Defined.

Lemma get_ceph_objects_all_nodes_witness :
  CephCluster.get_ceph_objects ClusterFixtures.heap ClusterFixtures.cluster
                               (Py.VStr "mon")
  = Ok [new CephDemon 0%nat "mon" 1%nat; new CephDemon 1%nat "mon" 2%nat].
Proof.
  apply (proj2 (ClusterObjectFacts.get_ceph_objects_all_nodes
                  ClusterFixtures.heap ClusterFixtures.objects
                  ClusterFixtures.cluster "mon"
                  ltac:(intros n _; reflexivity) ltac:(discriminate))).
Defined.

(** ** RolesContainer: equality, removal and update *)

Module RolesFacts.

Lemma list_eqb_eq (l m : list string) : Py.list_eqb l m = true <-> l = m.
Proof.
  revert m. induction l as [| x l IH]; intros [| y m]; simpl.
  - tauto.
  - split; discriminate.
  - split; discriminate.
  - rewrite andb_true_iff, String.eqb_eq, IH. split.
    + intros [-> ->]. reflexivity.
    + intros [= -> ->]. split; reflexivity.
Qed.

Lemma eq_container_members (self other : RolesContainer.t) :
  RolesContainer.__eq__ self (RolesContainer.as_value other) = true
  <-> (forall x, In x (RolesContainer.role_list self) ->
                 In x (RolesContainer.role_list other)).
Proof.
  unfold RolesContainer.__eq__, RolesContainer.as_value. simpl.
  rewrite <- all_in_list. destruct (forallb _ _); split; congruence.
Qed.

(** [equals] is equality of the two role lists, order and repeats
    included; it implies [==] in both directions, and [==] holds in both
    directions exactly when the two containers hold the same roles. *)
Theorem equals_and_eq (self other : RolesContainer.t) :
  (RolesContainer.equals self other = true
   <-> RolesContainer.role_list self = RolesContainer.role_list other)
  /\ (RolesContainer.equals self other = true ->
      RolesContainer.__eq__ self (RolesContainer.as_value other) = true
      /\ RolesContainer.__eq__ other (RolesContainer.as_value self) = true)
  /\ (RolesContainer.__eq__ self (RolesContainer.as_value other) = true
      /\ RolesContainer.__eq__ other (RolesContainer.as_value self) = true
      <-> (forall x, In x (RolesContainer.role_list self)
                     <-> In x (RolesContainer.role_list other))).
Proof.
  assert (Heq : RolesContainer.equals self other = true
                <-> RolesContainer.role_list self = RolesContainer.role_list other).
  { unfold RolesContainer.equals.
    destruct (Py.list_eqb _ _) eqn:E.
    - apply list_eqb_eq in E. split; congruence.
    - split; [discriminate |]. intros H. symmetry in H.
      apply list_eqb_eq in H. congruence. }
  split; [exact Heq |]. split.
  - intros H. apply Heq in H. rewrite !eq_container_members, H. split; auto.
  - rewrite !eq_container_members. split.
    + intros [H1 H2] x. split; auto.
    + intros H. split; intros x Hx; now apply H.
Qed.

Lemma equals_and_eq_witness :
  RolesContainer.__eq__ {| RolesContainer.role_list := ["mon"; "osd"] |}
    (RolesContainer.as_value {| RolesContainer.role_list := ["osd"; "mon"; "osd"] |})
  = true
  /\ RolesContainer.__eq__ {| RolesContainer.role_list := ["osd"; "mon"; "osd"] |}
       (RolesContainer.as_value {| RolesContainer.role_list := ["mon"; "osd"] |})
     = true.
Proof.
  apply (proj2 (proj2 (equals_and_eq
                         {| RolesContainer.role_list := ["mon"; "osd"] |}
                         {| RolesContainer.role_list := ["osd"; "mon"; "osd"] |}))).
  intros x. simpl. tauto.
Defined.

Lemma list_remove_absent (x : string) (l : list string) :
  ~ In x l -> Py.list_remove x l = None.
Proof.
  induction l as [| y l IH]; simpl; intros H; [reflexivity |].
  destruct (y =? x)%string eqn:E.
  - apply String.eqb_eq in E. elim H. now left.
  - rewrite IH; [reflexivity | intros Hin; apply H; now right].
Qed.

Lemma list_remove_present (x : string) (l : list string) :
  In x l ->
  exists l1 l2, l = l1 ++ x :: l2 /\ ~ In x l1
                /\ Py.list_remove x l = Some (l1 ++ l2).
Proof.
  induction l as [| y l IH]; simpl; intros H; [now elim H |].
  destruct (y =? x)%string eqn:E.
  - apply String.eqb_eq in E. subst. exists [], l. simpl. auto.
  - apply String.eqb_neq in E. destruct H as [H | H]; [congruence |].
    destruct (IH H) as [l1 [l2 [-> [Hn ->]]]].
    exists (y :: l1), l2. simpl. split; [reflexivity |]. split; [| reflexivity].
    intros [Hy | Hin]; [congruence | now apply Hn].
Qed.

(** [remove] raises [ValueError] exactly when the role is absent;
    otherwise it takes away the first occurrence of the role and leaves
    the rest of the list as it was. *)
Theorem remove_first_occurrence (self : RolesContainer.t) (x : string) :
  (~ In x (RolesContainer.role_list self) ->
   RolesContainer.remove self x
   = Raised (ValueError "list.remove(x): x not in list"))
  /\ (In x (RolesContainer.role_list self) ->
      exists l1 l2,
        RolesContainer.role_list self = l1 ++ x :: l2
        /\ ~ In x l1
        /\ RolesContainer.remove self x
           = Ok {| RolesContainer.role_list := l1 ++ l2 |}).
Proof.
  unfold RolesContainer.remove. split.
  - intros H. now rewrite (list_remove_absent x _ H).
  - intros H. destruct (list_remove_present x _ H) as [l1 [l2 [H1 [H2 H3]]]].
    exists l1, l2. rewrite H3. auto.
Qed.

Lemma remove_first_occurrence_witness :
  exists l1 l2,
    ["mon"; "osd"; "mgr"; "osd"] = l1 ++ "osd" :: l2
    /\ ~ In "osd" l1
    /\ RolesContainer.remove
         {| RolesContainer.role_list := ["mon"; "osd"; "mgr"; "osd"] |} "osd"
       = Ok {| RolesContainer.role_list := l1 ++ l2 |}.
Proof.
  apply (proj2 (remove_first_occurrence
                  {| RolesContainer.role_list := ["mon"; "osd"; "mgr"; "osd"] |}
                  "osd")).
  simpl. auto.
Defined.

Lemma list_remove_appended (x : string) (l : list string) :
  ~ In x l -> Py.list_remove x (l ++ [x]) = Some l.
Proof.
  induction l as [| y l IH]; simpl; intros H.
  - now rewrite String.eqb_refl.
  - destruct (y =? x)%string eqn:E.
    + apply String.eqb_eq in E. elim H. now left.
    + rewrite IH; [reflexivity | intros Hin; apply H; now right].
Qed.

(** A role that is appended answers to [==] at once, and removing a role
    just appended, when the container did not hold it before, gives the
    container back. *)
Theorem append_then_remove (self : RolesContainer.t) (x : string) :
  ~ In x (RolesContainer.role_list self) ->
  RolesContainer.__eq__ (RolesContainer.append self x) (Py.VStr x) = true
  /\ RolesContainer.__eq__ self (Py.VStr x) = false
  /\ RolesContainer.remove (RolesContainer.append self x) x = Ok self.
Proof.
  intros H. unfold RolesContainer.__eq__, RolesContainer.remove,
              RolesContainer.append. cbn [Py.has_iter RolesContainer.role_list].
  split; [| split].
  - replace (Py.in_list (Py.VStr x) (RolesContainer.role_list self ++ [x]))
      with true; [reflexivity |].
    symmetry. apply in_list_str, in_or_app. right. now left.
  - destruct (Py.in_list (Py.VStr x) (RolesContainer.role_list self)) eqn:E;
      [| reflexivity].
    apply in_list_str in E. now elim H.
  - rewrite (list_remove_appended x _ H). now destruct self.
Qed.

Lemma append_then_remove_witness :
  RolesContainer.remove
    (RolesContainer.append {| RolesContainer.role_list := ["mon"; "osd"] |} "mgr")
    "mgr"
  = Ok {| RolesContainer.role_list := ["mon"; "osd"] |}.
Proof.
  apply (append_then_remove {| RolesContainer.role_list := ["mon"; "osd"] |} "mgr").
  simpl. intros [H | [H | []]]; discriminate.
Defined.

End RolesFacts.

Module UpdateRoleFacts.

Section Update.

Variable list_of_set : list string -> list string.
Hypothesis list_of_set_NoDup : forall l, NoDup (list_of_set l).
Hypothesis list_of_set_In : forall l x, In x (list_of_set l) <-> In x l.

Lemma without_pool (l : list string) :
  NoDup l ->
  forall x,
    In x (RolesContainer.role_list
            (if Py.in_list (Py.VStr "pool") l
             then match Py.list_remove "pool" l with
                  | Some l' => {| RolesContainer.role_list := l' |}
                  | None => {| RolesContainer.role_list := l |}
                  end
             else {| RolesContainer.role_list := l |}))
    <-> In x l /\ x <> "pool".
Proof.
  intros Hnd x. destruct (Py.in_list (Py.VStr "pool") l) eqn:E.
  - apply in_list_str in E.
    destruct (RolesFacts.list_remove_present "pool" l E)
      as [l1 [l2 [Hl [Hn1 Hrm]]]].
    rewrite Hrm. cbn [RolesContainer.role_list]. subst l.
    apply NoDup_remove_2 in Hnd.
    rewrite !in_app_iff. cbn [In]. split.
    + intros Hx. split; [tauto |].
      intros ->. apply Hnd. apply in_or_app. tauto.
    + intros [[H | [H | H]] Hne]; [tauto | congruence | tauto].
  - cbn [RolesContainer.role_list]. split; [| tauto].
    intros Hx. split; [exact Hx |]. intros ->.
    apply in_list_str in Hx. congruence.
Qed.

(** [update_role] on a container without repeated roles: the result has
    no repeated role and holds exactly the old roles other than ["pool"]
    together with the new ones; so ["pool"] goes away unless the new roles
    bring it back, and updating a container that holds nothing but
    ["pool"] with no role at all leaves it empty. *)
Theorem update_role_members (self : RolesContainer.t) (L : list string) :
  NoDup (RolesContainer.role_list self) ->
  let updated := RolesContainer.update_role list_of_set self L in
  NoDup (RolesContainer.role_list updated)
  /\ (forall x, In x (RolesContainer.role_list updated)
                <-> (In x (RolesContainer.role_list self) /\ x <> "pool")
                    \/ In x L)
  /\ (~ In "pool" L -> ~ In "pool" (RolesContainer.role_list updated))
  /\ ((forall x, In x (RolesContainer.role_list self) -> x = "pool") ->
      L = [] -> RolesContainer.role_list updated = []).
Proof.
  intros Hnd updated.
  assert (Hin : forall x, In x (RolesContainer.role_list updated)
                          <-> (In x (RolesContainer.role_list self) /\ x <> "pool")
                              \/ In x L).
  { intros x. unfold updated, RolesContainer.update_role, RolesContainer.extend.
    cbn [RolesContainer.role_list]. rewrite list_of_set_In, in_app_iff.
    destruct self as [l]. cbn [RolesContainer.role_list] in *.
    rewrite <- (without_pool l Hnd x).
    destruct (Py.in_list (Py.VStr "pool") l);
      [destruct (Py.list_remove "pool" l) |]; reflexivity. }
  split; [apply list_of_set_NoDup |].
  split; [exact Hin |]. split.
  - intros HL Hp. apply Hin in Hp. destruct Hp as [[_ Hne] | Hp]; auto.
  - intros Hpool ->.
    destruct (RolesContainer.role_list updated) as [| x rest] eqn:E;
      [reflexivity |].
    assert (Hx : In x (x :: rest)) by now left.
    apply Hin in Hx. destruct Hx as [[Hx Hne] | []].
    elim Hne. now apply Hpool.
Qed.

End Update.

Lemma update_role_members_witness :
  let updated :=
    RolesContainer.update_role (nodup string_dec)
      {| RolesContainer.role_list := ["pool"] |} ["mon"; "osd"; "mon"] in
  NoDup (RolesContainer.role_list updated)
  /\ (forall x, In x (RolesContainer.role_list updated)
                <-> (In x ["pool"] /\ x <> "pool") \/ In x ["mon"; "osd"; "mon"])
  /\ (~ In "pool" ["mon"; "osd"; "mon"]
      -> ~ In "pool" (RolesContainer.role_list updated))
  /\ ((forall x, In x ["pool"] -> x = "pool") ->
      ["mon"; "osd"; "mon"] = [] -> RolesContainer.role_list updated = []).
Proof.
  apply (update_role_members (nodup string_dec)
           (fun l => NoDup_nodup string_dec l)
           (fun l x => nodup_In string_dec l x)
           {| RolesContainer.role_list := ["pool"] |} ["mon"; "osd"; "mon"]).
  repeat constructor. simpl. tauto.
Defined.

Example update_role_example :
  RolesContainer.role_list
    (RolesContainer.update_role (nodup string_dec)
       {| RolesContainer.role_list := ["pool"] |} ["mon"; "osd"; "mon"])
  = ["osd"; "mon"].
Proof. reflexivity. Qed.

End UpdateRoleFacts.

(** ** CephNode: construction and volumes *)

Module InitFacts.
Import CephNode.

Lemma factory_oid (node : node_ref) (n : nat) (r : string) (o : ceph_object) :
  CephObjectFactory.create_ceph_object node n r = Some o -> oid o = n.
Proof.
  rewrite create_ceph_object_cases.
  destruct (r =? "installer")%string; [intros [= <-]; reflexivity |].
  destruct (Py.in_list _ _); [intros [= <-]; reflexivity |].
  destruct (r =? "pool")%string; [discriminate | intros [= <-]; reflexivity].
Qed.

Lemma init_objects_roles (node : node_ref) (roles : list string) :
  forall n, object_roles (init_objects node n roles)
            = filter (fun r => negb (r =? "pool")%string) roles.
Proof.
  induction roles as [| r roles IH]; intros n; cbn [init_objects filter];
    [reflexivity |].
  rewrite str_eqb_spec. destruct (r =? "pool")%string eqn:Hp; cbn [negb].
  - apply IH.
  - change (CephObjectFactory.create_ceph_object node n r
            :: init_objects node (S n) roles)
      with ([CephObjectFactory.create_ceph_object node n r]
            ++ init_objects node (S n) roles).
    rewrite NodeFacts.object_roles_app, NodeFacts.factory_role, Hp, IH.
    reflexivity.
Qed.

Lemma init_objects_oids (node : node_ref) (roles : list string) :
  forall n o, In (Some o) (init_objects node n roles) ->
              (n <= oid o < n + List.length (init_objects node n roles))%nat.
Proof.
  induction roles as [| r roles IH]; intros n o; cbn [init_objects];
    [intros [] |].
  destruct (negb _).
  - cbn [In List.length]. intros [H | H].
    + apply factory_oid in H. lia.
    + apply IH in H. lia.
  - apply IH.
Qed.

(** A node built for the roles [role] holds one object per role other
    than ["pool"], in order, and no empty entry; its role reads as those
    roles, or as ["pool"] when none is left; and the identity kept for the
    next object is above those of all its objects. *)
Theorem init_roles (self_ref : node_ref) (first_oid : nat)
        (ip_address hostname : string) (role : list string)
        (no_of_volumes : Z) (root_connection connection : ssh_link) :
  let self := CephNodeInit.node_of
                (CephNodeInit.__init__ self_ref first_oid ip_address hostname
                   role no_of_volumes root_connection connection) in
  let kept := filter (fun r => negb (r =? "pool")%string) role in
  object_roles (ceph_object_list self) = kept
  /\ (exists objects, ceph_object_list self = map Some objects)
  /\ RolesContainer.role_list (role_ self)
     = match kept with [] => ["pool"] | _ :: _ => kept end
  /\ Identity.fresh self.
Proof.
  intros self kept. split; [apply init_objects_roles |].
  split; [apply NodeFacts.init_objects_all_objects |]. split.
  - rewrite NodeFacts.role_list_of_roles.
    unfold self. cbn [CephNodeInit.__init__ CephNodeInit.node_of ceph_object_list].
    rewrite init_objects_roles. fold kept. now destruct kept.
  - intros o Ho. unfold self in *.
    cbn [CephNodeInit.__init__ CephNodeInit.node_of ceph_object_list next_oid] in *.
    apply init_objects_oids in Ho. lia.
Qed.

Lemma fresh_volumes_length (n : Z) :
  List.length (CephNodeInit.fresh_volumes n) = Z.to_nat n.
Proof.
  unfold CephNodeInit.fresh_volumes. destruct (n =? 0) eqn:E.
  - apply Z.eqb_eq in E. now subst.
  - apply repeat_length.
Qed.

Lemma filter_repeat_all {A : Type} (p : A -> bool) (a : A) (n : nat) :
  p a = true -> filter p (repeat a n) = repeat a n.
Proof. intros H. induction n as [| n IH]; simpl; [| rewrite H, IH]; reflexivity. Qed.

Lemma filter_repeat_none {A : Type} (p : A -> bool) (a : A) (n : nat) :
  p a = false -> filter p (repeat a n) = [].
Proof. intros H. induction n as [| n IH]; simpl; [| rewrite H]; auto. Qed.

Lemma fresh_volumes_repeat (n : Z) :
  CephNodeInit.fresh_volumes n
  = repeat {| NodeVolume.status := NodeVolume.FREE |} (Z.to_nat n).
Proof.
  unfold CephNodeInit.fresh_volumes. destruct (n =? 0) eqn:E; [| reflexivity].
  apply Z.eqb_eq in E. now subst.
Qed.

Lemma map_repeat {A B : Type} (f : A -> B) (b : B) (a : A) (n : nat) :
  (forall x, f x = b) -> map f (repeat a n) = repeat b n.
Proof. intros H. induction n as [| n IH]; simpl; [| rewrite H, IH]; reflexivity. Qed.

Lemma osd_role_of_init (self_ref : node_ref) (first_oid : nat) (role : list string) :
  forall self,
    ceph_object_list self = init_objects self_ref first_oid role ->
    (RolesContainer.__eq__ (role_ self) (Py.VStr "osd") = true <-> In "osd" role).
Proof.
  intros self Hl. rewrite ClusterFacts.role_eq_str, Hl, init_objects_roles.
  rewrite filter_In. split.
  - intros [[H _] | [H _]]; [exact H | discriminate].
  - intros H. left. split; [exact H | reflexivity].
Qed.

(** A new node has as many volumes as asked for (none for a negative
    count); all of them are allocated when ["osd"] is among its roles and
    all of them are free otherwise, so one of the two volume queries
    returns them all and the other returns nothing. *)
Theorem init_volumes (self_ref : node_ref) (first_oid : nat)
        (ip_address hostname : string) (role : list string)
        (no_of_volumes : Z) (root_connection connection : ssh_link) :
  let volumes := CephNodeInit.voulume_list
                   (CephNodeInit.__init__ self_ref first_oid ip_address hostname
                      role no_of_volumes root_connection connection) in
  List.length volumes = Z.to_nat no_of_volumes
  /\ (In "osd" role ->
      CephNodeInit.get_allocated_volumes volumes = volumes
      /\ CephNodeInit.get_free_volumes volumes = [])
  /\ (~ In "osd" role ->
      CephNodeInit.get_free_volumes volumes = volumes
      /\ CephNodeInit.get_allocated_volumes volumes = []).
Proof.
  intros volumes. unfold volumes.
  cbn [CephNodeInit.__init__ CephNodeInit.voulume_list].
  rewrite fresh_volumes_repeat.
  rewrite (map_repeat _ {| NodeVolume.status := NodeVolume.ALLOCATED |})
    by reflexivity.
  match goal with
  | |- context [RolesContainer.__eq__ (role_ ?s) _] =>
      pose proof (osd_role_of_init self_ref first_oid role s eq_refl) as Hosd
  end.
  destruct (RolesContainer.__eq__ _ _).
  - split; [apply repeat_length |]. split.
    + intros _. unfold CephNodeInit.get_allocated_volumes,
                  CephNodeInit.get_free_volumes.
      rewrite filter_repeat_all, filter_repeat_none; auto.
    + intros H. elim H. now apply Hosd.
  - split; [apply repeat_length |]. split.
    + intros H. apply Hosd in H. discriminate.
    + intros _. unfold CephNodeInit.get_allocated_volumes,
                  CephNodeInit.get_free_volumes.
      rewrite filter_repeat_all, filter_repeat_none; auto.
Qed.

Lemma init_volumes_witness :
  CephNodeInit.get_allocated_volumes
    (CephNodeInit.voulume_list
       (CephNodeInit.__init__ 1%nat 0%nat "10.0.0.5" "node1.example.com"
          ["mon"; "pool"; "osd"] 3 ClusterFixtures.idle ClusterFixtures.idle))
  = [{| NodeVolume.status := "allocated" |};
     {| NodeVolume.status := "allocated" |};
     {| NodeVolume.status := "allocated" |}]
  /\ CephNodeInit.get_free_volumes
       (CephNodeInit.voulume_list
          (CephNodeInit.__init__ 1%nat 0%nat "10.0.0.5" "node1.example.com"
             ["mon"; "pool"; "osd"] 3 ClusterFixtures.idle ClusterFixtures.idle))
     = [].
Proof.
  apply (proj1 (proj2 (init_volumes 1%nat 0%nat "10.0.0.5" "node1.example.com"
                         ["mon"; "pool"; "osd"] 3
                         ClusterFixtures.idle ClusterFixtures.idle))).
  simpl. auto.
Defined.

End InitFacts.

(** ** CephNode: adding, removing and querying objects *)

Module ObjectListFacts.
Import CephNode.

Lemma entry_remove_absent (x : option ceph_object) (l : list (option ceph_object)) :
  (forall y, In y l -> same_entry y x = false) <-> list_remove x l = None.
Proof.
  induction l as [| y l IH]; simpl.
  - split; [reflexivity | intros _ y []].
  - split.
    + intros H. rewrite (H y (or_introl eq_refl)).
      rewrite (proj1 IH (fun z Hz => H z (or_intror Hz))). reflexivity.
    + destruct (same_entry y x) eqn:E; [discriminate |].
      destruct (list_remove x l) eqn:R; [discriminate |].
      intros _ z [<- | Hz]; [exact E | now apply IH].
Qed.

Lemma entry_remove_appended (x : option ceph_object) (l : list (option ceph_object)) :
  (forall y, In y l -> same_entry y x = false) ->
  same_entry x x = true ->
  list_remove x (l ++ [x]) = Some l.
Proof.
  intros Hl Hx. induction l as [| y l IH]; simpl.
  - now rewrite Hx.
  - rewrite (Hl y (or_introl eq_refl)).
    rewrite IH; [reflexivity | intros z Hz; apply Hl; now right].
Qed.

Lemma list_remove_none_appended (l : list (option ceph_object)) :
  exists l',
    list_remove None (l ++ [None]) = Some l'
    /\ object_roles l' = object_roles l
    /\ (forall o, In (Some o) l' -> In (Some o) l).
Proof.
  induction l as [| [a |] l IH]; simpl.
  - exists []. repeat split. intros o [].
  - destruct IH as [l' [-> [Hr Hi]]]. exists (Some a :: l'). simpl.
    split; [reflexivity |]. split; [now rewrite Hr |].
    intros o [H | H]; [now left | right; now apply Hi].
  - exists (l ++ [None]). split; [reflexivity |]. split.
    + now rewrite NodeFacts.object_roles_app, app_nil_r.
    + intros o H. apply in_app_or in H. destruct H as [H | [H | []]];
        [now right | discriminate].
Qed.

Lemma role_of_list (self other : t) :
  object_roles (ceph_object_list self) = object_roles (ceph_object_list other) ->
  role_ self = role_ other.
Proof. intros H. unfold role_. now rewrite H. Qed.

(** Removing the object that [create_ceph_object] has just added leaves
    the role of the node as it was before the two calls; for a role other
    than ["pool"] the object list itself is as before. *)
Theorem create_then_remove (self : t) (r : string) :
  Identity.fresh self ->
  exists self2,
    remove_ceph_object
      (create_ceph_object self r)
      (CephObjectFactory.create_ceph_object (self_ref self) (next_oid self) r)
    = Ok self2
    /\ role_ self2 = role_ self
    /\ (r <> "pool" -> ceph_object_list self2 = ceph_object_list self)
    /\ Identity.fresh self2.
Proof.
  intros Hf. unfold remove_ceph_object, create_ceph_object.
  cbn [ceph_object_list set_ceph_object_list next_oid].
  destruct (CephObjectFactory.create_ceph_object (self_ref self) (next_oid self) r)
    as [o |] eqn:E.
  - assert (Ho : oid o = next_oid self)
      by (apply (InitFacts.factory_oid _ _ _ _ E)).
    rewrite entry_remove_appended.
    + eexists. split; [reflexivity |].
      split; [apply role_of_list; reflexivity |].
      split; [reflexivity |].
      intros x Hx. cbn [ceph_object_list set_ceph_object_list next_oid] in *.
      apply Hf in Hx. lia.
    + intros [a |] Ha; [| reflexivity]. simpl.
      apply Hf in Ha. apply Nat.eqb_neq. lia.
    + simpl. apply Nat.eqb_refl.
  - destruct (list_remove_none_appended (ceph_object_list self))
      as [l' [-> [Hr Hi]]].
    eexists. split; [reflexivity |].
    split; [apply role_of_list; exact Hr |]. split.
    + intros Hp. rewrite create_ceph_object_cases in E.
      apply String.eqb_neq in Hp. rewrite Hp in E.
      destruct (r =? "installer")%string; [discriminate |].
      destruct (Py.in_list _ _); discriminate.
    + intros x Hx. cbn [ceph_object_list set_ceph_object_list next_oid] in *.
      apply Hi, Hf in Hx. lia.
Qed.

Lemma create_then_remove_witness :
  exists self2,
    remove_ceph_object
      (create_ceph_object (ClusterFixtures.heap 2%nat) "mgr")
      (CephObjectFactory.create_ceph_object 7%nat 2%nat "mgr")
    = Ok self2
    /\ role_ self2 = role_ (ClusterFixtures.heap 2%nat)
    /\ ("mgr" <> "pool" ->
        ceph_object_list self2 = ceph_object_list (ClusterFixtures.heap 2%nat))
    /\ Identity.fresh self2.
Proof.
  apply (create_then_remove (ClusterFixtures.heap 2%nat) "mgr").
  intros o [H | [H | []]]; injection H as <-; simpl; lia.
Defined.

(** [remove_ceph_object] raises [ValueError] exactly when no entry of the
    list is the object given; otherwise it takes one entry away, the first
    that is this object, and keeps the others in place. *)
Theorem remove_ceph_object_cases (self : t) (o : option ceph_object) :
  (remove_ceph_object self o = Raised (ValueError "list.remove(x): x not in list")
   <-> (forall y, In y (ceph_object_list self) -> same_entry y o = false))
  /\ (forall self',
         remove_ceph_object self o = Ok self' ->
         exists l1 y l2,
           ceph_object_list self = l1 ++ y :: l2
           /\ same_entry y o = true
           /\ (forall z, In z l1 -> same_entry z o = false)
           /\ ceph_object_list self' = l1 ++ l2
           /\ List.length (ceph_object_list self)
              = S (List.length (ceph_object_list self'))).
Proof.
  unfold remove_ceph_object. split.
  - rewrite entry_remove_absent.
    destruct (list_remove o (ceph_object_list self)); split; congruence.
  - intros self'.
    destruct (list_remove o (ceph_object_list self)) as [l' |] eqn:E;
      [| discriminate].
    intros [= <-]. cbn [ceph_object_list set_ceph_object_list].
    revert l' E. induction (ceph_object_list self) as [| y l IH]; simpl;
      [discriminate |].
    intros l'. destruct (same_entry y o) eqn:Hy.
    + intros [= <-]. exists [], y, l. simpl. repeat split; auto.
      intros z [].
    + destruct (list_remove o l) as [l0 |]; simpl; [| discriminate].
      intros [= <-]. destruct (IH l0 eq_refl) as [l1 [z [l2 [-> [Hz [Hb [-> Hlen]]]]]]].
      exists (y :: l1), z, l2. simpl. repeat split; auto.
      intros w [<- | Hw]; auto.
Qed.

Lemma remove_ceph_object_cases_witness :
  remove_ceph_object (ClusterFixtures.heap 2%nat)
                     (Some (new CephDemon 5%nat "mon" 2%nat))
  = Raised (ValueError "list.remove(x): x not in list").
Proof.
  apply (proj1 (remove_ceph_object_cases (ClusterFixtures.heap 2%nat)
                  (Some (new CephDemon 5%nat "mon" 2%nat)))).
  intros y [<- | [<- | []]]; reflexivity.
Defined.

Lemma select_ext (c1 c2 : string -> bool) (l : list (option ceph_object)) :
  (forall r, c1 r = c2 r) -> select c1 l = select c2 l.
Proof.
  intros H. induction l as [| [o |] l IH]; simpl; [reflexivity | | reflexivity].
  rewrite IH, H. reflexivity.
Qed.

(** With a role given, [get_ceph_demon] and [get_ceph_objects] answer the
    same on every node, empty entries or not; they differ only without a
    role, where the first returns nothing. *)
Theorem queries_agree (self : t) (r : string) :
  r <> "" ->
  get_ceph_demon self (Py.VStr r) = get_ceph_objects self (Py.VStr r)
  /\ get_ceph_demon self (Py.VStr "") = Ok []
  /\ get_ceph_demon self Py.VNone = Ok [].
Proof.
  intros Hr. split; [| split; reflexivity].
  unfold get_ceph_demon, get_ceph_objects.
  assert (Htruthy : Py.truthy (Py.VStr r) = true).
  { simpl. apply String.eqb_neq in Hr. now rewrite Hr. }
  rewrite Htruthy. apply select_ext. intros r'. now rewrite orb_false_r.
Qed.

Lemma queries_agree_witness :
  get_ceph_demon (ClusterFixtures.heap 2%nat) (Py.VStr "mon")
  = get_ceph_objects (ClusterFixtures.heap 2%nat) (Py.VStr "mon").
Proof.
  apply (queries_agree (ClusterFixtures.heap 2%nat) "mon"). discriminate.
Defined.

(** On a node that holds objects only, and for a role other than
    ["pool"], the role of the node answers [== r] exactly when
    [get_ceph_objects(r)] finds an object. *)
Theorem role_matches_objects (self : t) (objects : list ceph_object) (r : string) :
  ceph_object_list self = map Some objects ->
  r <> "" -> r <> "pool" ->
  exists found,
    get_ceph_objects self (Py.VStr r) = Ok found
    /\ (forall o, In o found <-> In o objects /\ role o = r)
    /\ (RolesContainer.__eq__ (role_ self) (Py.VStr r) = true <-> found <> []).
Proof.
  intros Hl Hr Hp.
  exists (filter (fun o => (role o =? r)%string) objects).
  split; [| split].
  - unfold get_ceph_objects. rewrite Hl, NodeFacts.select_objects. f_equal.
    apply filter_ext. intros o. simpl.
    apply String.eqb_neq in Hr. rewrite Hr. apply orb_false_r.
  - intros o. rewrite filter_In, String.eqb_eq. reflexivity.
  - rewrite ClusterFacts.role_eq_str, Hl,
      ClusterObjectFacts.object_roles_objects. split.
    + intros [Hin | [Hpool _]]; [| congruence].
      apply in_map_iff in Hin. destruct Hin as [o [Ho Hin]].
      intros Hnil.
      assert (Hf : In o (filter (fun o => (role o =? r)%string) objects)).
      { apply filter_In. split; [exact Hin | now apply String.eqb_eq]. }
      rewrite Hnil in Hf. exact Hf.
    + intros Hne. left.
      destruct (filter (fun o => (role o =? r)%string) objects) as [| o rest] eqn:E;
        [now elim Hne |].
      assert (Hf : In o (filter (fun o => (role o =? r)%string) objects))
        by (rewrite E; now left).
      apply filter_In in Hf. destruct Hf as [Hin Ho].
      apply String.eqb_eq in Ho. subst r. now apply in_map.
Qed.

Lemma role_matches_objects_witness :
  exists found,
    get_ceph_objects (ClusterFixtures.heap 2%nat) (Py.VStr "osd") = Ok found
    /\ (forall o, In o found <-> In o (ClusterFixtures.objects 2%nat) /\ role o = "osd")
    /\ (RolesContainer.__eq__ (role_ (ClusterFixtures.heap 2%nat)) (Py.VStr "osd")
        = true <-> found <> []).
Proof.
  apply (role_matches_objects (ClusterFixtures.heap 2%nat)
           (ClusterFixtures.objects 2%nat) "osd" eq_refl);
    discriminate.
Defined.

(** [exec_command] touches nothing of the node but the recorded exit
    status: objects, role, connections, address and the connected flag
    stay; and the exit status changes only in standard mode, to the status
    of a command whose submission returned. *)
Theorem exec_command_frame (self : t) (kw : kwargs) :
  let self' := snd (fst (exec_command self kw)) in
  ceph_object_list self' = ceph_object_list self
  /\ next_oid self' = next_oid self
  /\ role_ self' = role_ self
  /\ root_connection self' = root_connection self
  /\ connection self' = connection self
  /\ ip_address self' = ip_address self
  /\ run_once self' = run_once self
  /\ (self' = self
      \/ (long_running kw = false
          /\ exists stdin stdout stderr,
               submit (selected self kw) (cmd kw) (effective_timeout kw)
               = Started stdin stdout stderr
               /\ self' = set_exit_status (recv_exit_status stdout) self)).
Proof.
  intros self'.
  assert (H : self' = self
              \/ (long_running kw = false
                  /\ exists stdin stdout stderr,
                       submit (selected self kw) (cmd kw) (effective_timeout kw)
                       = Started stdin stdout stderr
                       /\ self' = set_exit_status (recv_exit_status stdout) self)).
  { unfold self', exec_command.
    destruct (rearm self); [now left |].
    destruct (long_running kw) eqn:Hl.
    - destruct (open_session _ _); [| now left].
      destruct (poll _ _ _) as [[[read ec] |] log2]; now left.
    - unfold try_submit.
      destruct (submit _ _ _) as [si so se | e] eqn:Hs.
      + right. split; [reflexivity |]. exists si, so, se.
        split; [reflexivity |].
        destruct (checks_exit_code kw); [destruct (_ =? 0) |]; reflexivity.
      + destruct e; now left. }
  destruct H as [E | [Hl [si [so [se [Hs E]]]]]]; rewrite E.
  - repeat split; auto.
  - repeat split; auto. right. split; [exact Hl |].
    exists si, so, se. split; [exact Hs | reflexivity].
Qed.

End ObjectListFacts.

(** ** SSHConnectionManager: after the outage timeout *)

Module OutageFacts.
Import SSHConnectionManager.

Lemma connect_keeps_timeout (attempts : list attempt) :
  forall (self : t) (w : world),
    outage_timeout (snd (fst (__connect attempts self w))) = outage_timeout self.
Proof.
  induction attempts as [| a rest IH]; intros self w; simpl; [reflexivity |].
  destruct a as [d | d e].
  - reflexivity.
  - rewrite ConnectFacts.iteration_fails.
    destruct (outage_timeout self <? _); [reflexivity |].
    rewrite IH. reflexivity.
Qed.

(** A manager whose [__connect] has raised keeps the time of the first
    failure: at any later call the first failed attempt raises at once,
    without a sleep and without a further try, until an attempt succeeds,
    which clears the time. *)
Theorem connect_stays_failed
        (attempts : list attempt) (self self' : t) (w w' : world) (e : exn) :
  __connect attempts self w = (Failed e, self', w') ->
  (forall (d : Z) (e2 : exn) (rest : list attempt) (w2 : world),
      now w' <= now w2 -> 0 <= d ->
      __connect (Fails d e2 :: rest) self' w2
      = (Failed e2, self', warn e2 (pass d w2)))
  /\ (forall (d : Z) (rest : list attempt) (w2 : world),
         __connect (Connects d :: rest) self' w2
         = (Connected, set_outage_start_time None self', pass d w2)).
Proof.
  intros Hfail. split; [| reflexivity].
  intros d e2 rest w2 Hlater Hd.
  destruct (ConnectFacts.connect_failed_late _ _ _ _ _ _ Hfail)
    as [t0 [earlier [Hstart [Hlate _]]]].
  pose proof (connect_keeps_timeout attempts self w) as Hto.
  rewrite Hfail in Hto. cbn [fst snd] in Hto.
  cbn [__connect]. rewrite ConnectFacts.iteration_fails, Hstart, Hto.
  replace (outage_timeout self <? now w2 + d - t0) with true
    by (symmetry; apply Z.ltb_lt; lia).
  rewrite (ConnectFacts.set_same self' t0 Hstart). reflexivity.
Qed.

Lemma connect_stays_failed_witness :
  __connect [Fails 0 (OtherException "again"); Connects 1]
            (set_outage_start_time (Some 101) (__init__ "host" "user" "pw" false 25))
            {| now := 500; slept := []; warned := [] |}
  = (Failed (OtherException "again"),
     set_outage_start_time (Some 101) (__init__ "host" "user" "pw" false 25),
     warn (OtherException "again")
          (pass 0 {| now := 500; slept := []; warned := [] |})).
Proof.
  apply (proj1 (connect_stays_failed
                  [Fails 1 (OtherException "a"); Fails 2 (OtherException "b");
                   Fails 1 (OtherException "c"); Fails 1 (OtherException "d")]
                  (__init__ "host" "user" "pw" false 25)
                  (set_outage_start_time (Some 101)
                     (__init__ "host" "user" "pw" false 25))
                  {| now := 100; slept := []; warned := [] |}
                  {| now := 135; slept := [10; 10; 10];
                     warned := [OtherException "a"; OtherException "b";
                                OtherException "c"; OtherException "d"] |}
                  (OtherException "d") eq_refl));
    simpl; lia.
Defined.




End OutageFacts.

(** ** Command routing of the Ceph objects *)

Module ProxyFacts.
Import CephNode.

(** A containerized [CephDemon] never reaches its node: building the
    container prefix reads the attribute [hostmname], which no node has,
    so [exec_command] raises [AttributeError]; every other object, and a
    demon that is not containerized, hands the command to the node
    unchanged. *)
Theorem exec_command_routing
        (self : ceph_object) (owner : t) (c : string) (kw : kwargs) :
  (class_of self = CephDemon -> containerized self = true ->
   ObjectProxy.exec_command self owner c kw
   = (Raises (AttributeError "'CephNode' object has no attribute 'hostmname'"),
      owner, []))
  /\ (class_of self <> CephDemon \/ containerized self = false ->
      ObjectProxy.exec_command self owner c kw
      = exec_command owner (ObjectProxy.with_cmd c kw)).
Proof.
  unfold ObjectProxy.exec_command, ObjectProxy.container_prefix,
    ObjectProxy.container_name, ObjectProxy.hostmname.
  split.
  - intros -> ->. reflexivity.
  - intros [H | ->].
    + destruct (class_of self); try reflexivity. now elim H.
    + destruct (class_of self); reflexivity.
Qed.

Lemma exec_command_routing_witness :
  ObjectProxy.exec_command
    {| oid := 0%nat; class_of := CephDemon; role := "osd"; node := 7%nat;
       containerized := true |}
    (ClusterFixtures.heap 2%nat) "ceph -s" (Fixtures.call "" None false)
  = (Raises (AttributeError "'CephNode' object has no attribute 'hostmname'"),
     ClusterFixtures.heap 2%nat, []).
Proof.
  apply (proj1 (exec_command_routing
                  {| oid := 0%nat; class_of := CephDemon; role := "osd";
                     node := 7%nat; containerized := true |}
                  (ClusterFixtures.heap 2%nat) "ceph -s"
                  (Fixtures.call "" None false)));
    reflexivity.
Defined.

End ProxyFacts.

(** ** CephNode: connect *)

Module FirstContactFacts.
Import CephNode FirstContact.

Lemma bind_returns {A B : Type} (m : step A) (k : A -> step B)
      (self : t) (attrs : attributes) (log : list entry)
      (a : A) (self1 : t) (attrs1 : attributes) (log1 : list entry) :
  m self attrs log = (inl a, (self1, attrs1, log1)) ->
  bind m k self attrs log = k a self1 attrs1 log1.
Proof. unfold bind. intros ->. reflexivity. Qed.

Lemma rearm_none (self : t) :
  transport (connection self) = None ->
  transport (root_connection self) = None ->
  rearm self = None.
Proof. intros H1 H2. unfold rearm. rewrite H1, H2. now destruct (run_once self). Qed.

Lemma node_exec_returns (self : t) (attrs : attributes) (log : list entry)
      (kw : kwargs) (stdin stdout stderr : stream) :
  sudo kw = false -> timeout kw = None -> long_running kw = false ->
  transport (connection self) = None ->
  transport (root_connection self) = None ->
  submit (connection self) (cmd kw) 120 = Started stdin stdout stderr ->
  check_ec kw = Some false \/ recv_exit_status stdout = 0 ->
  exists logged,
    node_exec kw self attrs log
    = (inl (stdout, stderr),
       (set_exit_status (recv_exit_status stdout) self, attrs, log ++ logged)).
Proof.
  intros Hsudo Htime Hlong Ht1 Ht2 Hsub Hok. unfold node_exec.
  rewrite (NodeFacts.exec_command_standard self kw Hlong (rearm_none self Ht1 Ht2)).
  unfold try_submit, selected, effective_timeout, checks_exit_code.
  rewrite Hsudo, Htime, Hsub. cbv zeta.
  destruct Hok as [-> | Hz].
  - eexists. reflexivity.
  - rewrite Hz. destruct (check_ec kw) as [[|] |]; eexists; reflexivity.
Qed.

Section Run.

Variables username password : string.
Variable raw : string -> submission.
Variables rin rout rerr : string -> stream.
Variables sin sout serr : string -> stream.
Variable self : t.

Hypothesis raw_returns : forall c, raw c = Started (rin c) (rout c) (rerr c).
Hypothesis root_transport : transport (root_connection self) = None.
Hypothesis user_transport : transport (connection self) = None.
Hypothesis submitted :
  forall c, submit (connection self) c 120 = Started (sin c) (sout c) (serr c).
Hypothesis succeeded :
  forall c, c <> release_probe -> recv_exit_status (sout c) = 0.

Lemma root_exec_returns (c : string) (n : t) (attrs : attributes)
      (log : list entry) :
  root_exec raw c n attrs log = (inl (rout c), (n, attrs, log)).
Proof. unfold root_exec. now rewrite raw_returns. Qed.

Lemma plain_returns (c : string) (chk : option bool) (status : Z)
      (attrs : attributes) (log : list entry) :
  chk = Some false \/ recv_exit_status (sout c) = 0 ->
  exists logged,
    node_exec (with_check_ec chk (plain c)) (set_exit_status status self) attrs log
    = (inl (sout c, serr c),
       (set_exit_status (recv_exit_status (sout c)) self, attrs, log ++ logged)).
Proof.
  intros Hok.
  destruct (node_exec_returns (set_exit_status status self) attrs log
              (with_check_ec chk (plain c)) (sin c) (sout c) (serr c))
    as [logged H]; try reflexivity; try assumption.
  - apply submitted.
  - exists logged. exact H.
Qed.

Lemma first_returns (c : string) (attrs : attributes) (log : list entry) :
  recv_exit_status (sout c) = 0 ->
  exists logged,
    node_exec (plain c) self attrs log
    = (inl (sout c, serr c),
       (set_exit_status (recv_exit_status (sout c)) self, attrs, log ++ logged)).
Proof.
  intros Hok.
  destruct (node_exec_returns self attrs log (plain c) (sin c) (sout c) (serr c))
    as [logged H]; try reflexivity; try assumption.
  - apply submitted.
  - now right.
  - exists logged. exact H.
Qed.

(** When the root client accepts its commands, both transports are up
    and the commands run for the user all exit with status 0 (the release
    probe apart), [connect] returns: the node is marked connected, its
    recorded exit status is that of the release probe, the host name is
    the stripped output of [hostname] and the short name what stands
    before its first dot, the internal address is the stripped output of
    the interface query, and the package family is "rpm" when the probe
    exits with 0 and "deb" otherwise, whatever the probe prints. *)
Theorem connect_returns (attrs : attributes) (log : list entry) :
  let name := PyStr.strip (data (sout "hostname")) in
  let probe := recv_exit_status (sout release_probe) in
  exists log',
    connect username password raw self attrs log
    = (inl tt,
       (set_run_once (set_exit_status probe self),
        {| hostname := Some name;
           shortname := Some (PyStr.first_field name);
           internal_ip := Some (PyStr.strip (data (sout ifconfig)));
           pkg_type := Some (if probe =? 0 then "rpm" else "deb") |},
        log')).
Proof.
  intros name probe. unfold connect, set_internal_ip.
  rewrite (bind_returns get_node _ _ _ _ _ _ _ _ eq_refl). cbv beta.
  rewrite (bind_returns (info _) _ _ _ _ _ _ _ _ eq_refl). cbv beta.
  rewrite (bind_returns _ _ _ _ _ _ _ _ _ (root_exec_returns _ _ _ _)). cbv beta.
  assert (Hk : forall which n a l,
             transport (which n) = None ->
             set_keepalive which n a l = (inl tt, (n, a, l))).
  { intros which n a l H. unfold set_keepalive. now rewrite H. }
  rewrite (bind_returns _ _ _ _ _ _ _ _ _ (Hk root_connection _ _ _ root_transport)). cbv beta.
  cbv zeta.
  rewrite (bind_returns (info _) _ _ _ _ _ _ _ _ eq_refl). cbv beta.
  rewrite (bind_returns _ _ _ _ _ _ _ _ _ (root_exec_returns _ _ _ _)). cbv beta.
  rewrite (bind_returns (info _) _ _ _ _ _ _ _ _ eq_refl). cbv beta.
  rewrite (bind_returns _ _ _ _ _ _ _ _ _ (root_exec_returns _ _ _ _)). cbv beta.
  rewrite (bind_returns _ _ _ _ _ _ _ _ _ (root_exec_returns _ _ _ _)). cbv beta.
  rewrite (bind_returns _ _ _ _ _ _ _ _ _ (root_exec_returns _ _ _ _)). cbv beta.
  destruct (first_returns "ls / ; uptime ; date" attrs
              (((log ++ [Connecting (vmname self) (ip_address self)])
                ++ [RunningCommand
                      ("echo " ++ "'" ++ username ++ ":" ++ password ++ "'"
                       ++ "|" ++ "chpasswd")%string])
               ++ [Lines (data (rout
                      ("echo " ++ "'" ++ username ++ ":" ++ password ++ "'"
                       ++ "|" ++ "chpasswd")%string))]))
    as [l1 H1]; [apply succeeded; discriminate |].
  rewrite (bind_returns _ _ _ _ _ _ _ _ _ H1). cbv beta.
  rewrite (bind_returns _ _ _ _ _ _ _ _ _
             (Hk connection (set_exit_status _ self) _ _ user_transport)). cbv beta.
  match goal with
  | |- context [bind (node_exec (plain "hostname")) _ (set_exit_status ?s self) ?a ?l] =>
      destruct (plain_returns "hostname" None s a l
                  (or_intror (succeeded "hostname" ltac:(discriminate))))
        as [l2 H2]
  end.
  change (with_check_ec None (plain "hostname")) with (plain "hostname") in H2.
  rewrite (bind_returns _ _ _ _ _ _ _ _ _ H2). cbv beta.
  cbv zeta. cbn [fst].
  rewrite (bind_returns (set_attributes _) _ _ _ _ _ _ _ _ eq_refl). cbv beta.
  rewrite (bind_returns (info _) _ _ _ _ _ _ _ _ eq_refl). cbv beta.
  match goal with
  | |- context [bind (bind (node_exec (plain ifconfig)) _) _
                     (set_exit_status ?s self) ?a ?l] =>
      destruct (plain_returns ifconfig None s a l
                  (or_intror (succeeded ifconfig ltac:(discriminate))))
        as [l3 H3]
  end.
  change (with_check_ec None (plain ifconfig)) with (plain ifconfig) in H3.
  rewrite (bind_returns _ _ _ _ _ _ _ _ _
             (bind_returns _ _ _ _ _ _ _ _ _ H3)). cbv beta.
  match goal with
  | |- context [bind (node_exec (plain ?c)) _ (set_exit_status ?s self) ?a ?l] =>
      destruct (plain_returns c None s a l
                  (or_intror (succeeded c ltac:(discriminate)))) as [l4 H4];
        change (with_check_ec None (plain c)) with (plain c) in H4
  end.
  rewrite (bind_returns _ _ _ _ _ _ _ _ _ H4). cbv beta.
  match goal with
  | |- context [bind (node_exec (with_check_ec (Some false) (plain release_probe)))
                     _ (set_exit_status ?s self) ?a ?l] =>
      destruct (plain_returns release_probe (Some false) s a l
                  (or_introl eq_refl)) as [l5 H5]
  end.
  rewrite (bind_returns _ _ _ _ _ _ _ _ _ H5). cbv beta.
  rewrite (bind_returns get_node _ _ _ _ _ _ _ _ eq_refl). cbv beta.
  rewrite (bind_returns (set_attributes _) _ _ _ _ _ _ _ _ eq_refl). cbv beta.
  rewrite (bind_returns (info _) _ _ _ _ _ _ _ _ eq_refl). cbv beta.
  unfold mark_connected. cbn [exit_status set_exit_status hostname shortname
                                internal_ip pkg_type fst].
  fold probe. fold name.
  eexists. f_equal. f_equal. f_equal. f_equal.
  destruct probe as [| q | q]; reflexivity.
Qed.

End Run.

Lemma connect_returns_witness :
  exists log',
    connect "cephuser" "secret" HostFixtures.root_answers HostFixtures.host
            unset []
    = (inl tt,
       (set_run_once (set_exit_status 1 HostFixtures.host),
        {| hostname := Some "node1.example.com";
           shortname := Some "node1";
           internal_ip := Some "10.0.0.9";
           pkg_type := Some "deb" |},
        log')).
Proof.
  apply (connect_returns "cephuser" "secret" HostFixtures.root_answers
           (fun _ => Fixtures.quiet) (fun _ => Fixtures.quiet)
           (fun _ => Fixtures.quiet)
           (fun _ => Fixtures.quiet) HostFixtures.answers
           (fun _ => Fixtures.quiet) HostFixtures.host).
  - intros c. reflexivity.
  - reflexivity.
  - reflexivity.
  - intros c. reflexivity.
  - intros c Hc. unfold HostFixtures.answers.
    destruct (c =? "hostname")%string; [reflexivity |].
    destruct (c =? ifconfig)%string; [reflexivity |].
    destruct (c =? release_probe)%string eqn:E; [| reflexivity].
    apply String.eqb_eq in E. now elim Hc.
Defined.

Lemma exec_command_keeps_run_once (self : t) (kw : kwargs) :
  run_once (snd (fst (exec_command self kw))) = run_once self.
Proof.
  unfold exec_command.
  destruct (rearm self); [reflexivity |].
  destruct (long_running kw).
  - destruct (open_session _ _); [| reflexivity].
    destruct (poll _ _ _) as [[[read ec] |] log2]; reflexivity.
  - destruct (try_submit _ _ _) as [[[[so se] |] logged] | e]; try reflexivity.
    destruct (checks_exit_code kw); [destruct (_ =? 0) |]; reflexivity.
Qed.

Lemma exec_command_standard_ends (self : t) (kw : kwargs) :
  long_running kw = false ->
  (exists so se, fst (fst (exec_command self kw)) = Returns so se)
  \/ (exists e, fst (fst (exec_command self kw)) = Raises e).
Proof.
  intros Hl. unfold exec_command. rewrite Hl.
  destruct (rearm self); [right; eexists; reflexivity |].
  destruct (try_submit _ _ _) as [[[[so se] |] logged] | e];
    [| right; eexists; reflexivity | right; eexists; reflexivity].
  destruct (checks_exit_code kw); [destruct (_ =? 0) |]; cbn [fst];
    [left | right | left]; repeat eexists.
Qed.

Lemma node_exec_discreet (kw : kwargs) : discreet (node_exec kw).
Proof.
  intros self attrs log. unfold node_exec, node_after, attributes_after.
  pose proof (exec_command_keeps_run_once self kw) as H.
  destruct (exec_command self kw) as [[[so se | read ec | e |] self1] logged];
    cbn [fst snd] in *; auto.
Qed.

Lemma node_exec_failure (kw : kwargs) :
  long_running kw = false -> discreet_failure (node_exec kw).
Proof.
  intros Hl self attrs log ending Hend.
  split; [| apply node_exec_discreet].
  unfold node_exec in Hend.
  destruct (exec_command_standard_ends self kw Hl) as [[so [se H]] | [e H]];
    destruct (exec_command self kw) as [[out self1] logged];
    cbn [fst] in H; subst out; cbn [fst] in Hend.
  - discriminate.
  - injection Hend as <-. eauto.
Qed.

Lemma bind_failure {A B : Type} (m : step A) (k : A -> step B) :
  discreet m -> discreet_failure m ->
  (forall a, discreet_failure (k a)) ->
  discreet_failure (bind m k).
Proof.
  intros Hm Hf Hk self attrs log ending.
  pose proof (Hm self attrs log) as Hkeep.
  pose proof (Hf self attrs log) as Hfail.
  unfold bind, node_after, attributes_after in *.
  destruct (m self attrs log) as [[a | e] [[self1 attrs1] log1]];
    cbn [fst snd] in *.
  - intros Hend. destruct (Hk a self1 attrs1 log1 ending Hend) as [He [Hr Hp]].
    unfold node_after, attributes_after in *.
    split; [exact He |]. destruct Hkeep as [Hr1 Hp1]. split; congruence.
  - intros [= <-]. destruct (Hfail e eq_refl) as [He _].
    split; [exact He | exact Hkeep].
Qed.

Lemma bind_discreet {A B : Type} (m : step A) (k : A -> step B) :
  discreet m -> (forall a, discreet (k a)) -> discreet (bind m k).
Proof.
  intros Hm Hk self attrs log.
  pose proof (Hm self attrs log) as Hkeep.
  unfold bind, node_after, attributes_after in *.
  destruct (m self attrs log) as [[a | e] [[self1 attrs1] log1]];
    cbn [fst snd] in *; [| exact Hkeep].
  destruct (Hk a self1 attrs1 log1) as [Hr Hp].
  unfold node_after, attributes_after in *.
  destruct Hkeep as [Hr1 Hp1]. split; congruence.
Qed.

Lemma plain_step_discreet {A : Type} (m : step A) :
  (forall self attrs log,
      exists a log', m self attrs log = (inl a, (self, attrs, log'))) ->
  discreet m /\ discreet_failure m.
Proof.
  intros H. split.
  - intros self attrs log. destruct (H self attrs log) as [a [log' ->]].
    split; reflexivity.
  - intros self attrs log ending. destruct (H self attrs log) as [a [log' ->]].
    discriminate.
Qed.

Lemma root_exec_step (raw : string -> submission) (c : string) :
  discreet (root_exec raw c) /\ discreet_failure (root_exec raw c).
Proof.
  split.
  - intros self attrs log. unfold root_exec. destruct (raw c); split; reflexivity.
  - intros self attrs log ending. unfold root_exec.
    destruct (raw c); [discriminate |]. intros [= <-].
    split; [eauto | split; reflexivity].
Qed.

Lemma set_keepalive_step (which : t -> ssh_link) :
  discreet (set_keepalive which) /\ discreet_failure (set_keepalive which).
Proof.
  split.
  - intros self attrs log. unfold set_keepalive.
    destruct (transport (which self)); split; reflexivity.
  - intros self attrs log ending. unfold set_keepalive.
    destruct (transport (which self)); [| discriminate]. intros [= <-].
    split; [eauto | split; reflexivity].
Qed.

Lemma info_step (e : entry) : discreet (info e) /\ discreet_failure (info e).
Proof. apply plain_step_discreet. intros self attrs log. now exists tt, (log ++ [e]). Qed.

Lemma get_node_step : discreet get_node /\ discreet_failure get_node.
Proof. apply plain_step_discreet. intros self attrs log. now exists self, log. Qed.

Lemma names_step (f : attributes -> attributes) :
  (forall a, pkg_type (f a) = pkg_type a) ->
  discreet (set_attributes f) /\ discreet_failure (set_attributes f).
Proof.
  intros Hf. split.
  - intros self attrs log. split; [reflexivity | apply Hf].
  - intros self attrs log ending. discriminate.
Qed.

(** A [connect] that does not return has raised, and it leaves the node
    unmarked and its package family unset: the connected flag and
    [pkg_type] are as they were before the call. *)
Theorem connect_failure (username password : string)
        (raw : string -> submission) (self : t) (attrs : attributes)
        (log : list entry) (ending : FirstContact.ending) :
  fst (connect username password raw self attrs log) = inr ending ->
  (exists e, ending = Fails e)
  /\ run_once (node_after (connect username password raw self attrs log))
     = run_once self
  /\ pkg_type (attributes_after (connect username password raw self attrs log))
     = pkg_type attrs.
Proof.
  revert self attrs log ending.
  change (discreet_failure (connect username password raw)).
  unfold connect, set_internal_ip.
  repeat
    (first
       [ apply bind_failure;
         [ first [ apply get_node_step | apply info_step | apply root_exec_step
                 | apply set_keepalive_step | apply node_exec_discreet
                 | apply names_step; reflexivity ]
         | first [ apply get_node_step | apply info_step | apply root_exec_step
                 | apply set_keepalive_step
                 | apply node_exec_failure; reflexivity
                 | apply names_step; reflexivity ]
         | intros ? ]
       | progress cbv zeta ]).
  apply bind_failure;
    [ apply bind_discreet;
      [apply node_exec_discreet | intros ?; apply names_step; reflexivity]
    | apply bind_failure;
      [ apply node_exec_discreet
      | apply node_exec_failure; reflexivity
      | intros ?; apply names_step; reflexivity ]
    | intros ? ].
  repeat
    (apply bind_failure;
     [ first [apply get_node_step | apply node_exec_discreet]
     | first [apply get_node_step | apply node_exec_failure; reflexivity]
     | intros ? ]).
  intros self attrs log ending H.
  cbv [bind set_attributes info mark_connected fst] in H. discriminate H.
Qed.

Lemma connect_failure_witness :
  (exists e, Fails (OtherException "connection refused") = Fails e)
  /\ run_once (node_after (connect "cephuser" "secret" HostFixtures.root_down
                             HostFixtures.host unset []))
     = run_once HostFixtures.host
  /\ pkg_type (attributes_after (connect "cephuser" "secret" HostFixtures.root_down
                                   HostFixtures.host unset []))
     = pkg_type unset.
Proof.
  apply (connect_failure "cephuser" "secret" HostFixtures.root_down
           HostFixtures.host unset [] (Fails (OtherException "connection refused"))).
  reflexivity.
Defined.

End FirstContactFacts.

(** ** Lifecycle policies *)

Module LifecycleFacts.
Import Lifecycle.



Section Clock.

Variable date_after : Z -> string.

(** [NoncurrentVersionExpirationRule] is refused exactly when neither
    the days nor the number of versions is given as a value other than 0;
    the dictionary of a rule that was built is never empty: it holds
    "NoncurrentDays" whenever a number of days was passed, 0 included, and
    "NewerNoncurrentVersions" whenever a number of versions was passed. *)
Theorem noncurrent_rule (filter : LifecycleFilter) (enabled : bool)
        (id : string) (days versions : option Z) :
  (new_rule filter enabled id (NoncurrentVersionExpirationRule days versions)
   = Raised (ValueError
               "Either non_current_days or newer_non_current_versions must be set")
   <-> given_int days = false /\ given_int versions = false)
  /\ (forall rule,
         new_rule filter enabled id (NoncurrentVersionExpirationRule days versions)
         = Ok rule ->
         exists items,
           action_entry date_after (action_of rule)
           = ("NoncurrentVersionExpiration", JDict items)
           /\ items <> []
           /\ (In "NoncurrentDays" (map fst items) <-> days <> None)
           /\ (In "NewerNoncurrentVersions" (map fst items) <-> versions <> None)).
Proof.
  unfold new_rule. split.
  - destruct (given_int days), (given_int versions); simpl; split;
      try discriminate; try tauto; intros [H1 H2]; discriminate.
  - intros rule.
    destruct (negb (given_int days) && negb (given_int versions)) eqn:E;
      [discriminate |].
    intros [= <-]. cbn [action_of action_entry]. eexists.
    split; [reflexivity |].
    destruct days as [d |], versions as [v |]; simpl in *;
      try discriminate E;
      (split; [discriminate |]);
      (split; split; intros H; try discriminate;
       try (now left); try tauto;
       try (destruct H as [H | H]; try discriminate H; try tauto;
            destruct H as [H | H]; try discriminate H; try tauto)).
    all: try (right; now left).
    all: try (elim H; reflexivity).
Qed.


End Clock.

Lemma noncurrent_rule_witness :
  exists items,
    action_entry (fun _ => "2030-01-01")
                 (NoncurrentVersionExpirationRule (Some 0) (Some 3))
    = ("NoncurrentVersionExpiration", JDict items)
    /\ items <> []
    /\ (In "NoncurrentDays" (map fst items) <-> Some 0 <> None)
    /\ (In "NewerNoncurrentVersions" (map fst items) <-> Some 3 <> None).
Proof.
  apply (proj2 (noncurrent_rule (fun _ => "2030-01-01")
                  {| prefix := None; tags := None; minBytes := None;
                     maxBytes := None |}
                  true "rule-1a2b3c4d" (Some 0) (Some 3))
               {| filter_of := {| prefix := None; tags := None; minBytes := None;
                                  maxBytes := None |};
                  is_enabled := true; _id := "rule-1a2b3c4d";
                  action_of := NoncurrentVersionExpirationRule (Some 0) (Some 3) |}).
  reflexivity.
Defined.


End LifecycleFacts.

(** ** CephNode: generate_id_rsa *)

Module KeyPairFacts.
Import CephNode FirstContact KeyPair.

Lemma node_exec_raises (self : t) (attrs : attributes) (log : list entry)
      (kw : kwargs) (stdin stdout stderr : stream) :
  sudo kw = false -> timeout kw = None -> long_running kw = false ->
  check_ec kw = None ->
  transport (connection self) = None ->
  transport (root_connection self) = None ->
  submit (connection self) (cmd kw) 120 = Started stdin stdout stderr ->
  recv_exit_status stdout <> 0 ->
  fst (node_exec kw self attrs log)
  = inr (Fails (CommandFailed
                  (failure_message (cmd kw) (data stderr) (ip_address self)))).
Proof.
  intros Hsudo Htime Hlong Hchk Ht1 Ht2 Hsub Hne. unfold node_exec.
  rewrite (NodeFacts.exec_command_standard self kw Hlong
             (FirstContactFacts.rearm_none self Ht1 Ht2)).
  unfold try_submit, selected, effective_timeout, checks_exit_code.
  rewrite Hsudo, Htime, Hsub, Hchk. cbv zeta.
  apply Z.eqb_neq in Hne. rewrite Hne. reflexivity.
Qed.

(** With both transports up and every command submitted,
    [generate_id_rsa] goes on whatever the exit status of the removal of
    the old key files; it stops with [CommandFailed] when the key
    generation exits with another status than 0, and when the generation
    and the reading of the public key both exit with 0 it returns what
    the reading printed. *)
Theorem generate_id_rsa_cases
        (self : t) (attrs : attributes) (log : list entry)
        (sin sout serr : string -> stream) :
  transport (connection self) = None ->
  transport (root_connection self) = None ->
  (forall c, submit (connection self) c 120 = Started (sin c) (sout c) (serr c)) ->
  (recv_exit_status (sout keygen) <> 0 ->
   fst (generate_id_rsa self attrs log)
   = inr (Fails (CommandFailed
                   (failure_message keygen (data (serr keygen))
                                    (ip_address self)))))
  /\ (recv_exit_status (sout keygen) = 0 ->
      recv_exit_status (sout show_key) = 0 ->
      exists log',
        generate_id_rsa self attrs log
        = (inl (data (sout show_key)), (set_exit_status 0 self, attrs, log'))).
Proof.
  intros Ht1 Ht2 Hsub. unfold generate_id_rsa.
  destruct (FirstContactFacts.node_exec_returns self attrs log
              (with_check_ec (Some false) (plain remove_old))
              (sin remove_old) (sout remove_old) (serr remove_old)
              eq_refl eq_refl eq_refl Ht1 Ht2 (Hsub remove_old)
              (or_introl eq_refl)) as [l1 H1].
  rewrite (FirstContactFacts.bind_returns _ _ _ _ _ _ _ _ _ H1). cbv beta.
  split.
  - intros Hne. unfold bind at 1.
    pose proof (node_exec_raises
                  (set_exit_status (recv_exit_status (sout remove_old)) self)
                  attrs (log ++ l1) (plain keygen)
                  (sin keygen) (sout keygen) (serr keygen)
                  eq_refl eq_refl eq_refl eq_refl Ht1 Ht2 (Hsub keygen) Hne) as H2.
    destruct (node_exec (plain keygen) _ attrs (log ++ l1))
      as [[a | e] [[self1 attrs1] log1]]; cbn [fst] in H2;
      [discriminate H2 | injection H2 as ->; reflexivity].
  - intros Hgen Hcat.
    destruct (FirstContactFacts.node_exec_returns
                (set_exit_status (recv_exit_status (sout remove_old)) self)
                attrs (log ++ l1) (plain keygen)
                (sin keygen) (sout keygen) (serr keygen)
                eq_refl eq_refl eq_refl Ht1 Ht2 (Hsub keygen)
                (or_intror Hgen)) as [l2 H2].
    rewrite (FirstContactFacts.bind_returns _ _ _ _ _ _ _ _ _ H2). cbv beta.
    destruct (FirstContactFacts.node_exec_returns
                (set_exit_status (recv_exit_status (sout keygen))
                   (set_exit_status (recv_exit_status (sout remove_old)) self))
                attrs ((log ++ l1) ++ l2) (plain show_key)
                (sin show_key) (sout show_key) (serr show_key)
                eq_refl eq_refl eq_refl Ht1 Ht2 (Hsub show_key)
                (or_intror Hcat)) as [l3 H3].
    rewrite (FirstContactFacts.bind_returns _ _ _ _ _ _ _ _ _ H3). cbv beta.
    unfold ret. cbn [fst]. rewrite Hcat. eexists. reflexivity.
Qed.

Lemma generate_id_rsa_cases_witness :
  exists log',
    generate_id_rsa HostFixtures.host unset []
    = (inl "", (set_exit_status 0 HostFixtures.host, unset, log')).
Proof.
  apply (proj2 (generate_id_rsa_cases HostFixtures.host unset []
                  (fun _ => Fixtures.quiet) HostFixtures.answers
                  (fun _ => Fixtures.quiet)
                  eq_refl eq_refl (fun c => eq_refl)));
    reflexivity.
Defined.

End KeyPairFacts.
